(** * ActivationReader: indexing, loading and splitting of extracted activations

    Shallow embedding of [rnnalyse/activations/activation_reader.py]
    (class [ActivationReader]) and of the functions [validate_config],
    [add_cmd_args] and [cast_activation_names] of [diagnnose/config/setup.py],
    together with the fragments of Python and NumPy semantics they rely
    on:

    - Python exceptions are values of [exn]; a computation that may raise
      has type [result A];
    - Python integers are [Z]; Python floats are IEEE binary64 values
      ([spec_float] with precision 53 and [emax] 1024);
    - a [dict] is an association list in insertion order, each key
      occurring once ([dict_wf]);
    - a 2-D [np.ndarray] is its column count and the list of its rows; the
      dumps of an activation file are 2-D arrays; integers held in index
      arrays are far below the 64-bit limit and are not wrapped;
    - the random draw of [create_data_split] is an argument of the model;
    - the reader object is a record, its methods run in a state-and-error
      monad over the reader and a trace of the files it opened. *)

From Stdlib Require Import String Ascii DecimalString.
From Stdlib Require Import SpecFloat.
From Stdlib Require Import ZArith Bool Lia List Permutation.
Import ListNotations.

Local Open Scope string_scope.
Local Open Scope Z_scope.
Local Open Scope list_scope.

(** ** Exceptions and fallible computations *)

Inductive exn : Type :=
| AssertionError
| KeyError
| IndexError
| ValueError
| TypeError
| OverflowError
| FileNotFoundError.

Definition result (A : Type) : Type := (exn + A)%type.

Definition ok {A} (a : A) : result A := inr a.
Definition raise {A} (e : exn) : result A := inl e.

Definition rbind {A B} (r : result A) (k : A -> result B) : result B :=
  match r with
  | inl e => inl e
  | inr a => k a
  end.

Declare Scope result_scope.
Delimit Scope result_scope with result.
Notation "'try' x <- c1 ; c2" := (rbind c1 (fun x => c2))
  (at level 10, x pattern, c1 at level 100, c2 at level 200) : result_scope.
Local Open Scope result_scope.

(** Left-to-right traversal that stops at the first exception, as a Python
    comprehension or loop does. *)
Fixpoint rmap {A B} (f : A -> result B) (l : list A) : result (list B) :=
  match l with
  | [] => ok []
  | a :: l' =>
      try b <- f a;
      try bs <- rmap f l';
      ok (b :: bs)
  end.

(** ** Python built-ins *)

Module Py.

(** [range(mi, ma)] *)
Definition range (mi ma : Z) : list Z :=
  map (fun i => mi + Z.of_nat i) (seq 0 (Z.to_nat (ma - mi))).

(** [len(range(a, b, st))] for a non-zero step. *)
Definition range_len (a b st : Z) : nat :=
  if 0 <? st then
    if a <? b then Z.to_nat ((b - a - 1) / st + 1) else 0%nat
  else
    if b <? a then Z.to_nat ((a - b - 1) / (- st) + 1) else 0%nat.

(** [range(a, b, st)] *)
Definition range3 (a b st : Z) : list Z :=
  map (fun i => a + Z.of_nat i * st) (seq 0 (range_len a b st)).

(** A slice object [slice(start, stop, step)]; [None] is an absent bound. *)
Record slice : Type := Slice {
  start : option Z;
  stop : option Z;
  step : option Z
}.

(** [slice.indices(len)]: the bounds and step actually used on a sequence
    of length [len]. *)
Definition slice_indices (s : slice) (len : Z) : result (Z * Z * Z) :=
  let st := match step s with None => 1 | Some k => k end in
  if st =? 0 then raise ValueError
  else
    let lower := if st <? 0 then -1 else 0 in
    let upper := if st <? 0 then len - 1 else len in
    let clamp v :=
      if v <? 0 then Z.max (v + len) lower else Z.min v upper in
    let a := match start s with
             | None => if st <? 0 then upper else lower
             | Some v => clamp v
             end in
    let b := match stop s with
             | None => if st <? 0 then lower else upper
             | Some v => clamp v
             end in
    ok (a, b, st).

(** [l[s]] for a list or the first axis of an array. *)
Definition getslice {A} (l : list A) (s : slice) : result (list A) :=
  try (a, b, st) <- slice_indices s (Z.of_nat (length l));
  rmap (fun i => match nth_error l (Z.to_nat i) with
                 | Some x => ok x
                 | None => raise IndexError
                 end)
       (range3 a b st).

(** Truthiness of an optional integer bound: [None] and [0] are falsy. *)
Definition truthy (v : option Z) : bool :=
  match v with
  | None => false
  | Some z => negb (z =? 0)
  end.

(** [max] of a sequence of integers; raises on the empty sequence. *)
Definition max (l : list Z) : result Z :=
  match l with
  | [] => raise ValueError
  | x :: l' => ok (fold_left Z.max l' x)
  end.

(** The format [f'{l}'] of an integer. *)
Definition str_of_int (l : Z) : string :=
  NilZero.string_of_int (Z.to_int l).

(** *** Floats *)

Definition float : Type := spec_float.

Definition prec : Z := 53.
Definition emax : Z := 1024.

(** Conversion of an [int] operand to [float], as done by [int * float]. *)
Definition float_of_int (n : Z) : result float :=
  match binary_normalize prec emax n 0 false with
  | S754_infinity _ => raise OverflowError
  | f => ok f
  end.

Definition float_mul (x y : float) : float := SFmul prec emax x y.

(** [int(x)]: truncation toward zero. *)
Definition int_of_float (x : float) : result Z :=
  match x with
  | S754_zero _ => ok 0
  | S754_infinity _ => raise OverflowError
  | S754_nan => raise ValueError
  | S754_finite s m e =>
      let mag := match e with
                 | Zneg _ => Z.shiftr (Zpos m) (- e)
                 | _ => Z.shiftl (Zpos m) e
                 end in
      ok (if s then - mag else mag)
  end.

(** [n * x] for an [int] [n] and a [float] [x]. *)
Definition int_times_float (n : Z) (x : float) : result float :=
  try f <- float_of_int n;
  ok (float_mul f x).

End Py.

(** ** NumPy arrays *)

Module Np.

Inductive dtype : Type := int64 | float64.

(** A 1-D array of integers together with its dtype.  The dtype matters
    for arrays used as indices: the conversion of an empty sequence yields
    a [float64] array, and a [float64] array is refused as an index. *)
Record index_array : Type := IndexArray {
  dt : dtype;
  elems : list Z
}.

(** [np.asarray(r)] for a sequence [r] of Python integers. *)
Definition asarray (r : list Z) : index_array :=
  {| dt := match r with [] => float64 | _ :: _ => int64 end; elems := r |}.

Definition promote (a b : dtype) : dtype :=
  match a, b with
  | int64, int64 => int64
  | _, _ => float64
  end.

(** [np.concatenate(parts)] for a list of integer sequences. *)
Definition concatenate (parts : list (list Z)) : result index_array :=
  match parts with
  | [] => raise ValueError
  | _ :: _ =>
      ok {| dt := fold_right promote int64 (map (fun r => dt (asarray r)) parts);
            elems := concat parts |}
  end.

(** Position of index [i] on an axis of length [len]: negative indices
    count from the end, anything outside [-len, len) raises.  Index values
    are those of an [int64] index array, [- 2 ^ 63 <= i < 2 ^ 63]; NumPy's
    conversion of larger Python integers (through [uint64], with
    wrap-around) is outside the model. *)
Definition norm_index (len i : Z) : result nat :=
  if (- len <=? i) && (i <? len)
  then ok (Z.to_nat (if i <? 0 then i + len else i))
  else raise IndexError.

(** Gathering along the first axis with a list of integers. *)
Definition take {A} (l : list A) (inds : list Z) : result (list A) :=
  rmap (fun i =>
          try j <- norm_index (Z.of_nat (length l)) i;
          match nth_error l j with
          | Some x => ok x
          | None => raise IndexError
          end)
       inds.

(** Gathering with an index array: [l[inds]]. *)
Definition take_array {A} (l : list A) (inds : index_array) : result (list A) :=
  match dt inds with
  | float64 => raise IndexError
  | int64 => take l (elems inds)
  end.

Section Array2.
Variable V : Type.

(** A 2-D array: [shape[1]] and the rows. *)
Record ndarray : Type := NdArray {
  ncols : nat;
  rows : list (list V)
}.

Definition len (a : ndarray) : Z := Z.of_nat (length (rows a)).

(** [np.empty((n, h))]: [n] rows of [h] cells holding whatever the
    fresh memory holds, given by [uninit]. *)
Definition empty (uninit : nat -> nat -> V) (n : Z) (h : nat) : ndarray :=
  {| ncols := h;
     rows := map (fun r => map (uninit r) (seq 0 h)) (seq 0 (Z.to_nat n)) |}.

(** [a[inds]] with an index array. *)
Definition getitem_array (a : ndarray) (inds : index_array) : result ndarray :=
  try rs <- take_array (rows a) inds;
  ok {| ncols := ncols a; rows := rs |}.

(** [a[l]] with a Python list of integers. *)
Definition getitem_list (a : ndarray) (l : list Z) : result ndarray :=
  try rs <- take (rows a) l;
  ok {| ncols := ncols a; rows := rs |}.

(** [a[s]] with a slice. *)
Definition getitem_slice (a : ndarray) (s : Py.slice) : result ndarray :=
  try rs <- Py.getslice (rows a) s;
  ok {| ncols := ncols a; rows := rs |}.

(** [a[lo:hi] = src], with the conversion [cast] to the dtype of [a].
    The destination has shape [(k, ncols a)] for the [k] rows the
    clamped slice selects; [src] must have that shape up to
    broadcasting: each of its two dimensions is equal to the
    destination's or is 1. *)
Definition setslice (cast : V -> V) (a : ndarray) (lo hi : Z) (src : ndarray)
  : result ndarray :=
  try (lo', hi', _) <- Py.slice_indices (Py.Slice (Some lo) (Some hi) None) (len a);
  let k := Py.range_len lo' hi' 1 in
  let i := length (rows src) in
  let h := ncols a in
  let c := ncols src in
  if ((i =? k)%nat || (i =? 1)%nat) && ((c =? h)%nat || (c =? 1)%nat) then
    let fit_row r :=
      if (c =? h)%nat then map cast r
      else flat_map (fun x => repeat (cast x) h) r in
    let new_rows :=
      if (i =? k)%nat then map fit_row (rows src)
      else flat_map (fun r => repeat (fit_row r) k) (rows src) in
    ok {| ncols := h;
          rows := firstn (Z.to_nat lo') (rows a) ++ new_rows
                  ++ skipn (Z.to_nat lo' + k) (rows a) |}
  else raise ValueError.

End Array2.

Arguments NdArray {V}.
Arguments ncols {V}.
Arguments rows {V}.
Arguments len {V}.
Arguments empty {V}.
Arguments getitem_array {V}.
Arguments getitem_list {V}.
Arguments getitem_slice {V}.
Arguments setslice {V}.

End Np.

(** ** Types of the reader ([typedefs]) *)

(** [ActivationName = Tuple[int, str]]: (layer, name). *)
Definition ActivationName : Type := (Z * string)%type.

(** [Range = Tuple[int, int]] *)
Definition Range : Type := (Z * Z)%type.

(** [ActivationRanges = Dict[int, Range]], in insertion order. *)
Definition ActivationRanges : Type := list (Z * Range).

Definition keys (d : ActivationRanges) : list Z := map fst d.
Definition values (d : ActivationRanges) : list Range := map snd d.

(** [d[k]] *)
Fixpoint dict_get (d : ActivationRanges) (k : Z) : result Range :=
  match d with
  | [] => raise KeyError
  | (k', r) :: d' => if k' =? k then ok r else dict_get d' k
  end.

(** A dict holds each key once. *)
Definition dict_wf (d : ActivationRanges) : Prop := NoDup (keys d).

Definition name_eqb (a b : ActivationName) : bool :=
  (fst a =? fst b) && String.eqb (snd a) (snd b).

(** The index part of a key: [int], [slice], a list or array of integers,
    or an object of another type. *)
Inductive ActivationIndex : Type :=
| IInt (i : Z)
| ISlice (s : Py.slice)
| IList (l : list Z)
| IOther.

(** The further components of a tuple key: an index type given as a string,
    or an activation name. *)
Inductive KeyArg : Type :=
| AStr (s : string)
| AName (a : ActivationName).

(** [ActivationKey]: a bare index, or a tuple whose first component is the
    index. *)
Inductive ActivationKey : Type :=
| KIndex (index : ActivationIndex)
| KTuple (index : ActivationIndex) (args : list KeyArg).

(** ** The reader object and its world *)

Section Reader.

(** Cells of activation arrays and labels. *)
Variables V L : Type.
(** Contents of freshly allocated array memory, per row and column. *)
Variable uninit : nat -> nat -> V.
(** Conversion to [np.float32] on assignment into the activations array. *)
Variable float32 : V -> V.
(** [utils.paths.trim] *)
Variable trim : string -> string.

Abbreviation ndarray := (Np.ndarray V).

(** The files of the extraction: what unpickling a path yields, by the kind
    of object read from it; [None] when the file cannot be opened.  An
    activation file is the sequence of its pickle dumps. *)
Record Disk : Type := {
  label_files : string -> option (list L);
  range_files : string -> option ActivationRanges;
  activation_files : string -> option (list ndarray)
}.

Variable disk : Disk.

Record ActivationReader : Type := {
  activations_dir : string;
  label_path : string;
  _activations : option ndarray;
  _labels : option (list L);
  _data_len : Z;
  _activation_ranges : option ActivationRanges;
  activation_name : option ActivationName
}.

Inductive event : Type :=
| LoadPickle (path : string)
| OpenActivations (path : string).

(** The reader together with the trace of file accesses, latest last. *)
Record World : Type := {
  self : ActivationReader;
  trace : list event
}.

Definition M (A : Type) : Type := World -> result A * World.

Definition ret {A} (a : A) : M A := fun w => (ok a, w).
Definition throw {A} (e : exn) : M A := fun w => (raise e, w).
Definition bind {A B} (m : M A) (k : A -> M B) : M B :=
  fun w => match m w with
           | (inl e, w') => (inl e, w')
           | (inr a, w') => k a w'
           end.
Definition lift {A} (r : result A) : M A := fun w => (r, w).
Definition get : M ActivationReader := fun w => (ok (self w), w).
Definition modify (f : ActivationReader -> ActivationReader) : M unit :=
  fun w => (ok tt, {| self := f (self w); trace := trace w |}).
Definition emit (e : event) : M unit :=
  fun w => (ok tt, {| self := self w; trace := trace w ++ [e] |}).
(** An [assert] statement, as executed when assertions are enabled. *)
Definition assert (b : bool) : M unit :=
  if b then ret tt else throw AssertionError.

Notation "x <- c1 ;; c2" := (bind c1 (fun x => c2))
  (at level 61, c1 at next level, right associativity).
Notation "c1 ;; c2" := (bind c1 (fun _ => c2))
  (at level 61, right associativity).

Fixpoint mapM {A B} (f : A -> M B) (l : list A) : M (list B) :=
  match l with
  | [] => ret []
  | a :: l' => b <- f a ;; bs <- mapM f l' ;; ret (b :: bs)
  end.

(** Attribute assignments. *)
Definition set__activations (v : option ndarray) (s : ActivationReader) :=
  {| activations_dir := activations_dir s; label_path := label_path s;
     _activations := v; _labels := _labels s; _data_len := _data_len s;
     _activation_ranges := _activation_ranges s;
     activation_name := activation_name s |}.
Definition set__labels (v : option (list L)) (s : ActivationReader) :=
  {| activations_dir := activations_dir s; label_path := label_path s;
     _activations := _activations s; _labels := v; _data_len := _data_len s;
     _activation_ranges := _activation_ranges s;
     activation_name := activation_name s |}.
Definition set__data_len (v : Z) (s : ActivationReader) :=
  {| activations_dir := activations_dir s; label_path := label_path s;
     _activations := _activations s; _labels := _labels s; _data_len := v;
     _activation_ranges := _activation_ranges s;
     activation_name := activation_name s |}.
Definition set__activation_ranges (v : option ActivationRanges) (s : ActivationReader) :=
  {| activations_dir := activations_dir s; label_path := label_path s;
     _activations := _activations s; _labels := _labels s;
     _data_len := _data_len s; _activation_ranges := v;
     activation_name := activation_name s |}.
Definition set_activation_name (v : option ActivationName) (s : ActivationReader) :=
  {| activations_dir := activations_dir s; label_path := label_path s;
     _activations := _activations s; _labels := _labels s;
     _data_len := _data_len s; _activation_ranges := _activation_ranges s;
     activation_name := v |}.

(** [utils.paths.load_pickle] on a file of the given kind. *)
Definition load_pickle {A} (files : string -> option A) (path : string) : M A :=
  emit (LoadPickle path) ;;
  match files path with
  | Some a => ret a
  | None => throw FileNotFoundError
  end.

(** *** Properties *)

Definition labels : M (list L) :=
  s <- get ;;
  match _labels s with
  | None =>
      l <- load_pickle (label_files disk) (label_path s) ;;
      modify (set__labels (Some l)) ;;
      ret l
  | Some l => ret l
  end.

Definition data_len : M Z :=
  s <- get ;;
  if _data_len s =? -1 then
    l <- labels ;;
    modify (set__data_len (Z.of_nat (length l))) ;;
    ret (Z.of_nat (length l))
  else ret (_data_len s).

Definition activation_ranges : M ActivationRanges :=
  s <- get ;;
  match _activation_ranges s with
  | None =>
      d <- load_pickle (range_files disk)
                       (activations_dir s ++ "/ranges.pickle")%string ;;
      modify (set__activation_ranges (Some d)) ;;
      ret d
  | Some d => ret d
  end.

Definition activations : M (option ndarray) :=
  s <- get ;; ret (_activations s).

(** *** [read_activations] *)

(** The body of the [while True] loop over the remaining pickle dumps of
    the file; the end of the dumps is [EOFError], which leaves the loop. *)
Fixpoint read_loop (dumps : list ndarray) (hidden_size : option nat)
         (acts : option ndarray) (n : Z) : M (option ndarray) :=
  match dumps with
  | [] => ret acts
  | sen_activations :: dumps' =>
      ha <- match hidden_size with
            | None =>
                let h := Np.ncols sen_activations in
                dl <- data_len ;;
                ret (Some h, Some (Np.empty uninit dl h))
            | Some _ => ret (hidden_size, acts)
            end ;;
      let i := Np.len sen_activations in
      match snd ha with
      | None => throw TypeError
      | Some a =>
          a' <- lift (Np.setslice float32 a n (n + i) sen_activations) ;;
          read_loop dumps' (fst ha) (Some a') (n + i)
      end
  end.

Definition activation_filename (activation_name : ActivationName) : string :=
  let (l, name) := activation_name in
  (name ++ "_l" ++ Py.str_of_int l ++ ".pickle")%string.

Definition read_activations (activation_name : ActivationName)
  : M (option ndarray) :=
  let filename := activation_filename activation_name in
  s <- get ;;
  let path := (activations_dir s ++ "/" ++ filename)%string in
  emit (OpenActivations path) ;;
  match activation_files disk path with
  | None => throw FileNotFoundError
  | Some dumps => read_loop dumps None None 0
  end.

(** The setter of the [activations] property. *)
Definition activations_setter (name : option ActivationName) : M unit :=
  match name with
  | None => modify (set__activations None)
  | Some a =>
      s <- get ;;
      if negb (match activation_name s with
               | Some b => name_eqb a b
               | None => false
               end)
      then
        modify (set_activation_name (Some a)) ;;
        acts <- read_activations a ;;
        modify (set__activations acts)
      else ret tt
  end.

(** [__init__], given the label path when one is provided. *)
Definition init (activations_dir : string) (label_path : option string)
  : ActivationReader :=
  let dir := trim activations_dir in
  {| activations_dir := dir;
     label_path := match label_path with
                   | None => (dir ++ "/labels.pickle")%string
                   | Some p => p
                   end;
     _activations := None;
     _labels := None;
     _data_len := -1;
     _activation_ranges := None;
     activation_name := None |}.

(** *** Indexing *)

Definition is_indextype (s : string) : bool :=
  existsb (String.eqb s) ["all"; "key"; "pos"].

(** The loop of [_parse_key] over [key[1:]]. *)
Fixpoint parse_args (args : list KeyArg) (indextype : string) : M string :=
  match args with
  | [] => ret indextype
  | AStr s :: args' =>
      if is_indextype s then parse_args args' s
      else if String.eqb s "" then throw IndexError
      else throw KeyError
  | AName a :: args' =>
      activations_setter (Some a) ;;
      parse_args args' indextype
  end.

Definition wrap_int (index : ActivationIndex) : ActivationIndex :=
  match index with
  | IInt i => IList [i]
  | _ => index
  end.

Definition _parse_key (key : ActivationKey) : M (ActivationIndex * string) :=
  match key with
  | KTuple index args =>
      indextype <- parse_args args "pos" ;;
      ret (wrap_int index, indextype)
  | KIndex index => ret (wrap_int index, "pos")
  end.

Definition _create_range_from_key (key : ActivationIndex) : M (list Range) :=
  match key with
  | IList l =>
      mapM (fun r => d <- activation_ranges ;; lift (dict_get d r)) l
  | ISlice s =>
      assert (match Py.step s with
              | None => true
              | Some st => st =? 1
              end) ;;
      let start := match Py.start s with
                   | Some a => if Py.truthy (Py.start s) then a else 0
                   | None => 0
                   end in
      stop <- match Py.stop s with
              | Some b =>
                  if Py.truthy (Py.stop s) then ret b
                  else d <- activation_ranges ;;
                       m <- lift (Py.max (keys d)) ;;
                       ret (m + 1)
              | None =>
                  d <- activation_ranges ;;
                  m <- lift (Py.max (keys d)) ;;
                  ret (m + 1)
              end ;;
      d <- activation_ranges ;;
      ret (map snd (filter (fun kr => (start <=? fst kr) && (fst kr <? stop)) d))
  | _ => throw KeyError
  end.

Definition _create_indices_from_range (ranges : list Range)
  : result Np.index_array :=
  Np.concatenate (map (fun r => Py.range (fst r) (snd r)) ranges).

(** [np.array(l)[index]] along the first axis, for the forms of index
    that [_parse_key] returns (an [int] has been wrapped in a list). *)
Definition index_axis0 {A} (l : list A) (index : ActivationIndex)
  : result (list A) :=
  match index with
  | IList inds => Np.take l inds
  | ISlice s => Py.getslice l s
  | IInt _ => raise TypeError
  | IOther => raise IndexError
  end.

Definition getitem (key : ActivationKey) : M ndarray :=
  p <- _parse_key key ;;
  let (index, indextype) := p in
  a <- activations ;;
  match a with
  | None => throw AssertionError
  | Some acts =>
      if String.eqb indextype "all" then
        rs <- lift (index_axis0 (Np.rows acts) index) ;;
        ret (Np.NdArray (Np.ncols acts) rs)
      else
        ranges <- (if String.eqb indextype "key"
                   then _create_range_from_key index
                   else d <- activation_ranges ;;
                        lift (index_axis0 (values d) index)) ;;
        inds <- lift (_create_indices_from_range ranges) ;;
        lift (Np.getitem_array acts inds)
  end.

(** *** [create_data_split] *)

Record DataDict : Type := {
  train_x : ndarray;
  train_y : list L;
  test_x : ndarray;
  test_y : list L
}.

(** The split point and the train and test indices computed from the
    outcome [indices] of the random draw. *)
Definition split_indices (data_size : Z) (train_test_split : Py.float)
           (indices : Np.index_array)
  : result (Z * Np.index_array * Np.index_array) :=
  try prod <- Py.int_times_float data_size train_test_split;
  try split <- Py.int_of_float prod;
  try train <- Py.getslice (Np.elems indices) (Py.Slice None (Some split) None);
  try test <- Py.getslice (Np.elems indices) (Py.Slice (Some split) None None);
  ok (split, Np.IndexArray (Np.dt indices) train, Np.IndexArray (Np.dt indices) test).

(** [choice] is the random source: [choice n] is the outcome of
    [np.random.choice(range(n), n, replace=False)], a rearrangement of
    [range(n)] as an array. *)
Definition create_data_split (name : ActivationName) (data_subset_size : Z)
           (train_test_split : Py.float) (choice : Z -> list Z) : M DataDict :=
  (if negb (data_subset_size =? -1) then
     (* [assert 0 < data_subset_size <= self.data_len]: the chained
        comparison reads [self.data_len] only when [0 < data_subset_size] *)
     (if 0 <? data_subset_size then
        dl <- data_len ;;
        assert (data_subset_size <=? dl)
      else assert false)
   else ret tt) ;;
  acts <- read_activations name ;;
  data_size <- (if data_subset_size =? -1 then data_len
                else ret data_subset_size) ;;
  let indices := Np.asarray (choice data_size) in
  sp <- lift (split_indices data_size train_test_split indices) ;;
  let train_indices := snd (fst sp) in
  let test_indices := snd sp in
  match acts with
  | None => throw TypeError
  | Some a =>
      trx <- lift (Np.getitem_array a train_indices) ;;
      ls <- labels ;;
      try_ <- lift (Np.take_array ls train_indices) ;;
      tex <- lift (Np.getitem_array a test_indices) ;;
      ls' <- labels ;;
      tey <- lift (Np.take_array ls' test_indices) ;;
      ret {| train_x := trx; train_y := try_; test_x := tex; test_y := tey |}
  end.

End Reader.

(** ** Vocabulary of the specification *)

Arguments activations_dir {V L}.
Arguments label_path {V L}.
Arguments _activations {V L}.
Arguments _labels {V L}.
Arguments _data_len {V L}.
Arguments _activation_ranges {V L}.
Arguments activation_name {V L}.
Arguments self {V L}.
Arguments trace {V L}.
Arguments label_files {V L}.
Arguments range_files {V L}.
Arguments activation_files {V L}.
Arguments train_x {V L}.
Arguments train_y {V L}.
Arguments test_x {V L}.
Arguments test_y {V L}.
Arguments ret {V L A}.
Arguments throw {V L A}.
Arguments bind {V L A B}.
Arguments lift {V L A}.
Arguments mapM {V L A B}.
Arguments labels {V L}.
Arguments data_len {V L}.
Arguments activation_ranges {V L}.
Arguments activations {V L}.
Arguments read_loop {V L}.
Arguments read_activations {V L}.
Arguments activations_setter {V L}.
Arguments init {V L}.
Arguments parse_args {V L}.
Arguments _parse_key {V L}.
Arguments _create_range_from_key {V L}.
Arguments index_axis0 {A}.
Arguments getitem {V L}.
Arguments create_data_split {V L}.

(** The rows [lo..hi-1] of a list, in increasing order: [l[lo:hi]] for
    bounds inside the list. *)
Definition between {A} (l : list A) (lo hi : Z) : list A :=
  firstn (Z.to_nat (hi - lo)) (skipn (Z.to_nat lo) l).

(** [np.concatenate((x, y))] of two 2-D arrays along the first axis. *)
Definition concatenate_rows {V} (x y : Np.ndarray V) : Np.ndarray V :=
  Np.NdArray (Np.ncols x) (Np.rows x ++ Np.rows y).

(** The rows of [a] selected by a list of ranges: steps (b) to (d) of
    [__getitem__]. *)
Definition gather {V} (a : Np.ndarray V) (ranges : list Range)
  : result (Np.ndarray V) :=
  try inds <- _create_indices_from_range ranges;
  Np.getitem_array a inds.

(** The ranges, taken in table order, are non-empty and consecutive from
    row [lo] to row [hi]: they partition [lo, hi) without gap or overlap. *)
Fixpoint tiles (rs : list Range) (lo hi : Z) : bool :=
  match rs with
  | [] => lo =? hi
  | (s, e) :: rs' => (s =? lo) && (s <? e) && tiles rs' e hi
  end.

(** Total number of rows of a sequence of dumps. *)
Definition total_rows {V} (dumps : list (Np.ndarray V)) : Z :=
  fold_right (fun c n => Np.len c + n) 0 dumps.

(** Every dump has [h] columns. *)
Definition same_width {V} (h : nat) (dumps : list (Np.ndarray V)) : bool :=
  forallb (fun c => (Np.ncols c =? h)%nat) dumps.

(** The mathematical floor of a finite float. *)
Definition float_floor (x : Py.float) : option Z :=
  match x with
  | S754_zero _ => Some 0
  | S754_finite s m e =>
      let n := if s then Zneg m else Zpos m in
      Some (if e <? 0 then n / 2 ^ (- e) else n * 2 ^ e)
  | _ => None
  end.

Definition float_signbit (x : Py.float) : bool :=
  match x with
  | S754_zero s | S754_infinity s | S754_finite s _ _ => s
  | S754_nan => false
  end.

Section Vocabulary.

Variables V L : Type.
Variable disk : Disk V L.

(** The RangeTable a reader works with: the cached one, or the one its
    [ranges.pickle] holds when none is cached yet. *)
Definition ranges_of (s : ActivationReader V L) : option ActivationRanges :=
  match _activation_ranges s with
  | Some d => Some d
  | None => range_files disk (activations_dir s ++ "/ranges.pickle")%string
  end.

(** The LabelVector a reader works with. *)
Definition labels_of (s : ActivationReader V L) : option (list L) :=
  match _labels s with
  | Some ls => Some ls
  | None => label_files disk (label_path s)
  end.

(** Reader [s] indexes the matrix [a] through the table [d]. *)
Definition serves (s : ActivationReader V L) (d : ActivationRanges)
           (a : Np.ndarray V) : Prop :=
  ranges_of s = Some d /\ _activations s = Some a.

(** Reader [s] has the LabelVector [ls]; a cached length is its length. *)
Definition labelled (s : ActivationReader V L) (ls : list L) : Prop :=
  labels_of s = Some ls
  /\ (_data_len s = -1 \/ _data_len s = Z.of_nat (length ls)).

(** The path of the dump file of an activation name. *)
Definition activation_path (s : ActivationReader V L) (name : ActivationName)
  : string :=
  (activations_dir s ++ "/" ++ activation_filename name)%string.

(** No activation file is opened between two traces. *)
Definition no_activation_read (before after : list event) : Prop :=
  forall p, In (OpenActivations p) after -> In (OpenActivations p) before.

End Vocabulary.

Arguments ranges_of {V L}.
Arguments labels_of {V L}.
Arguments serves {V L}.
Arguments labelled {V L}.
Arguments activation_path {V L}.

Section Vocabulary2.

Variables V L : Type.
Variable float32 : V -> V.

(** From [w] to [w'] only the label cache and the cached length may have
    changed, and no activation file was opened. *)
Definition only_labels_touched (w w' : World V L) : Prop :=
  activations_dir (self w') = activations_dir (self w)
  /\ label_path (self w') = label_path (self w)
  /\ _activations (self w') = _activations (self w)
  /\ _activation_ranges (self w') = _activation_ranges (self w)
  /\ activation_name (self w') = activation_name (self w)
  /\ no_activation_read (trace w) (trace w').

(** The loop of [read_activations] once the array is allocated: each dump
    is copied at the next free row offset. *)
Fixpoint fill (dumps : list (Np.ndarray V)) (a : Np.ndarray V) (n : Z)
  : result (Np.ndarray V) :=
  match dumps with
  | [] => ok a
  | c :: dumps' =>
      try a' <- Np.setslice float32 a n (n + Np.len c) c;
      fill dumps' a' (n + Np.len c)
  end.

End Vocabulary2.

Arguments only_labels_touched {V L}.
Arguments fill {V}.

Definition float_is_finite (x : Py.float) : bool :=
  match x with
  | S754_zero _ | S754_finite _ _ _ => true
  | _ => false
  end.

(** ** A small extraction used in the examples

    The table [{0: (0, 3), 1: (3, 5), 5: (5, 8)}] over a matrix of eight
    rows of one column, dumped as three arrays to [dir/hx_l1.pickle]. *)

Definition ex_matrix : Np.ndarray Z :=
  Np.NdArray 1%nat [[100]; [101]; [102]; [103]; [104]; [105]; [106]; [107]].

Definition ex_ranges : ActivationRanges := [(0, (0, 3)); (1, (3, 5)); (5, (5, 8))].

Definition ex_labels : list Z := [0; 1; 2; 3; 4; 5; 6; 7].

Definition ex_dumps : list (Np.ndarray Z) :=
  [Np.NdArray 1%nat [[100]; [101]; [102]];
   Np.NdArray 1%nat [[103]; [104]];
   Np.NdArray 1%nat [[105]; [106]; [107]]].

Definition ex_disk : Disk Z Z :=
  {| label_files := fun p =>
       if String.eqb p "dir/labels.pickle" then Some ex_labels else None;
     range_files := fun p =>
       if String.eqb p "dir/ranges.pickle" then Some ex_ranges else None;
     activation_files := fun p =>
       if String.eqb p "dir/hx_l1.pickle" then Some ex_dumps
       else if String.eqb p "dir/cx_l1.pickle" then Some (firstn 2 ex_dumps)
       else None |}.

(** A fresh reader on [dir]. *)
Definition ex_fresh : World Z Z :=
  {| self := init (fun s => s) "dir" None; trace := [] |}.

(** The reader after [reader.activations = (1, 'hx')]. *)
Definition ex_world : World Z Z :=
  {| self := {| activations_dir := "dir";
                label_path := "dir/labels.pickle";
                _activations := Some ex_matrix;
                _labels := Some ex_labels;
                _data_len := 8;
                _activation_ranges := None;
                activation_name := Some (1, "hx") |};
     trace := [OpenActivations "dir/hx_l1.pickle"; LoadPickle "dir/labels.pickle"] |}.

Definition ex_uninit (r c : nat) : Z := -1.
Definition ex_float32 (x : Z) : Z := x.

(** 0.7 and 0.9 as binary64 values. *)
Definition float_0_7 : Py.float := S754_finite false 6305039478318694 (-53).
Definition float_0_9 : Py.float := S754_finite false 8106479329266893 (-53).

(** ** Further vocabulary *)

Section Vocabulary3.

Variables V L : Type.

(** From [w] to [w'] the cached matrix, the active identity, the cached
    RangeTable and the directory are the same, and the trace of [w'] is
    the trace of [w] followed by [new]. *)
Definition cache_kept (w w' : World V L) (new : list event) : Prop :=
  _activations (self w') = _activations (self w)
  /\ activation_name (self w') = activation_name (self w)
  /\ _activation_ranges (self w') = _activation_ranges (self w)
  /\ activations_dir (self w') = activations_dir (self w)
  /\ trace w' = trace w ++ new.

End Vocabulary3.

Arguments cache_kept {V L}.

(** The computation [m] keeps the cache, whatever its outcome. *)
Definition keeps_cache {V L A} (m : M V L A) : Prop :=
  forall w, exists new, cache_kept w (snd (m w)) new.

(** ** Configuration set-up ([diagnnose/config/setup.py])

    Strings are sequences of characters with code points below 256. *)

Module Setup.

(** [int(c)] for a string [c] of one character: among the code points
    below 256 only the ASCII digits denote an integer. *)
Definition int_of_char (c : ascii) : result Z :=
  let n := Z.of_N (N_of_ascii c) in
  if (48 <=? n) && (n <=? 57) then ok (n - 48) else raise ValueError.

(** [s[-1]] *)
Fixpoint last_char (s : string) : result ascii :=
  match s with
  | EmptyString => raise IndexError
  | String c s' =>
      match s' with
      | EmptyString => ok c
      | String _ _ => last_char s'
      end
  end.

(** [s[0:-1]] *)
Fixpoint but_last (s : string) : string :=
  match s with
  | EmptyString => EmptyString
  | String c s' =>
      match s' with
      | EmptyString => EmptyString
      | String _ _ => String c (but_last s')
      end
  end.

(** The tuple [(int(name[-1]), name[0:-1])]. *)
Definition cast_name (name : string) : result ActivationName :=
  try c <- last_char name;
  try l <- int_of_char c;
  ok (l, but_last name).

(** An entry of the list of activation names: a name as read from the
    configuration, or the (layer, name) tuple it has been replaced by. *)
Inductive NameEntry : Type :=
| Raw (name : string)
| Cast (a : ActivationName).

(** [cast_activation_names] on a list of strings: the outcome, and the list
    as the loop leaves it, since the list is updated in place entry by
    entry. *)
Fixpoint cast_activation_names (activation_names : list string)
  : result unit * list NameEntry :=
  match activation_names with
  | [] => (ok tt, [])
  | name :: rest =>
      match cast_name name with
      | inl e => (inl e, map Raw (name :: rest))
      | inr a =>
          let (r, rest') := cast_activation_names rest in
          (r, Cast a :: rest')
      end
  end.

(** [s.split(".")] *)
Fixpoint split_dot (s : string) : list string :=
  match s with
  | EmptyString => [EmptyString]
  | String c s' =>
      if Ascii.eqb c "."%char then EmptyString :: split_dot s'
      else match split_dot s' with
           | h :: t => String c h :: t
           | [] => [String c EmptyString]
           end
  end.

(** ["."\.join(parts)] *)
Fixpoint join_dot (parts : list string) : string :=
  match parts with
  | [] => EmptyString
  | [p] => p
  | p :: parts' => (p ++ "." ++ join_dot parts')%string
  end.

Inductive setup_exn : Type :=
| SystemExit
| AttributeError.

Section Config.

(** Configuration values that are not dicts. *)
Variable Val : Type.

(** A configuration value: a dict with string keys, or anything else. *)
#[warnings="-register-all"]
Inductive value : Type :=
| Leaf (v : Val)
| Dict (items : list (string * value)).

(** [utils.misc.merge_dicts] *)
Variable merge_dicts : value -> value -> value.

Fixpoint lookup (items : list (string * value)) (key : string) : option value :=
  match items with
  | [] => None
  | (k, v) :: items' => if String.eqb k key then Some v else lookup items' key
  end.

(** [d[k1][k2]...] along a list of keys. *)
Fixpoint get_path (d : value) (path : list string) : option value :=
  match path with
  | [] => Some d
  | key :: path' =>
      match d with
      | Dict items =>
          match lookup items key with
          | Some d' => get_path d' path'
          | None => None
          end
      | Leaf _ => None
      end
  end.

(** The inner loop of [add_cmd_args]: wrap [val] in one dict per key. *)
Definition nest (cmd_arg : list string) (val : value) : value :=
  fold_left (fun cmd_arg_dict key => Dict [(key, cmd_arg_dict)]) cmd_arg val.

(** [cmd_args] holds, in order, the parsed arguments and their values,
    [None] for an argument that was not given. *)
Definition add_cmd_args (config_dict : value)
           (cmd_args : list (string * option value)) : value :=
  let cdm_arg_dicts :=
    flat_map (fun av =>
                match snd av with
                | Some val =>
                    if negb (String.eqb (fst av) "config")
                    then [nest (rev (split_dot (fst av))) val]
                    else []
                | None => []
                end) cmd_args in
  fold_left merge_dicts cdm_arg_dicts config_dict.

(** The set [config_args] of [validate_config], as the list of its
    elements: [g.k] for every group [g] and key [k] of the group. *)
Fixpoint config_args (config_dict : list (string * value))
  : setup_exn + list string :=
  match config_dict with
  | [] => inr []
  | (g, v) :: rest =>
      match v with
      | Dict items =>
          match config_args rest with
          | inr args => inr (map (fun kv => (g ++ "." ++ fst kv)%string) items ++ args)
          | inl e => inl e
          end
      | Leaf _ => inl AttributeError
      end
  end.

(** [validate_config], with assertions enabled; a failed assertion
    evaluates its message, [argparser.error(...)], which exits. *)
Definition validate_config (required_args : list string)
           (config_dict : list (string * value)) : setup_exn + unit :=
  match config_args config_dict with
  | inl e => inl e
  | inr args =>
      if forallb (fun arg => existsb (String.eqb arg) args) required_args
      then inr tt
      else inl SystemExit
  end.

End Config.

Arguments Leaf {Val}.
Arguments Dict {Val}.
Arguments lookup {Val}.
Arguments get_path {Val}.
Arguments nest {Val}.
Arguments add_cmd_args {Val}.
Arguments config_args {Val}.
Arguments validate_config {Val}.

End Setup.

(** ** Further examples *)

(** The example extraction with, in addition, a file without dump for
    [(0, 'ox')]. *)
Definition ex_disk_empty : Disk Z Z :=
  {| label_files := label_files ex_disk;
     range_files := range_files ex_disk;
     activation_files := fun p =>
       if String.eqb p "dir/ox_l0.pickle" then Some []
       else activation_files ex_disk p |}.





(** A configuration of two groups. *)
Definition ex_config : list (string * Setup.value string) :=
  [("model", Setup.Dict [("state_dict", Setup.Leaf "lstm.pt")]);
   ("activations", Setup.Dict [("dtype", Setup.Leaf "float32")])].

(** * Properties *)

(** ** The model on small inputs *)

Example range_3_5 : Py.range 3 5 = [3; 4].
Proof. reflexivity. Qed.

Example str_of_int_12 : Py.str_of_int 12 = "12" /\ Py.str_of_int 0 = "0".
Proof. split; reflexivity. Qed.

Example getslice_step2 :
  Py.getslice [10; 11; 12; 13; 14] (Py.Slice None None (Some 2)) = ok [10; 12; 14].
Proof. reflexivity. Qed.

Example getslice_neg :
  Py.getslice [10; 11; 12; 13; 14] (Py.Slice None (Some (-2)) None) = ok [10; 11; 12].
Proof. reflexivity. Qed.

Example getslice_rev :
  Py.getslice [10; 11; 12; 13; 14] (Py.Slice None None (Some (-2))) = ok [14; 12; 10].
Proof. reflexivity. Qed.

(** 0.7 as a binary64 value, and [int(10 * 0.7)]. *)
Example int_10_times_0_7 :
  (try f <- Py.int_times_float 10 float_0_7;
   Py.int_of_float f) = ok 7.
Proof. vm_compute. reflexivity. Qed.

Example concatenate_two :
  Np.concatenate [Py.range 0 3; Py.range 3 5]
  = ok (Np.IndexArray Np.int64 [0; 1; 2; 3; 4]).
Proof. reflexivity. Qed.

Example concatenate_with_empty_range :
  Np.concatenate [Py.range 0 3; Py.range 3 3]
  = ok (Np.IndexArray Np.float64 [0; 1; 2]).
Proof. reflexivity. Qed.

Example take_negative : Np.take [10; 11; 12] [-1; 0] = ok [12; 10].
Proof. reflexivity. Qed.

Example setslice_in_place :
  Np.setslice (fun x => x) (Np.NdArray 2%nat [[0; 0]; [0; 0]; [0; 0]]) 1 3
              (Np.NdArray 2%nat [[1; 2]; [3; 4]])
  = ok (Np.NdArray 2%nat [[0; 0]; [1; 2]; [3; 4]]).
Proof. reflexivity. Qed.

Example setslice_past_the_end :
  Np.setslice (fun x => x) (Np.NdArray 2%nat [[0; 0]; [0; 0]; [0; 0]]) 2 4
              (Np.NdArray 2%nat [[1; 2]; [3; 4]])
  = raise ValueError.
Proof. reflexivity. Qed.

Example setslice_broadcast_column :
  Np.setslice (fun x => x) (Np.NdArray 2%nat [[0; 0]; [0; 0]; [0; 0]]) 0 2
              (Np.NdArray 1%nat [[7]; [8]])
  = ok (Np.NdArray 2%nat [[7; 7]; [8; 8]; [0; 0]]).
Proof. reflexivity. Qed.


(** ** Traversals *)

Lemma rmap_app {A B} (f : A -> result B) (l1 l2 : list A) :
  rmap f (l1 ++ l2)
  = (try x <- rmap f l1; try y <- rmap f l2; ok (x ++ y)).
Proof.
  induction l1 as [|a l1 IH]; simpl.
  - destruct (rmap f l2); reflexivity.
  - destruct (f a) as [e|b]; simpl; [reflexivity|].
    rewrite IH.
    destruct (rmap f l1) as [e|x]; simpl; [reflexivity|].
    destruct (rmap f l2) as [e|y]; reflexivity.
Qed.

Lemma rmap_length {A B} (f : A -> result B) (l : list A) (r : list B) :
  rmap f l = ok r -> length r = length l.
Proof.
  revert r; induction l as [|a l IH]; simpl; intros r H.
  - inversion H; reflexivity.
  - destruct (f a) as [e|b]; simpl in H; [discriminate|].
    destruct (rmap f l) as [e|bs]; simpl in H; [discriminate|].
    inversion H; subst; simpl. f_equal. apply IH; reflexivity.
Qed.

Lemma rmap_ok_map {A B} (f : A -> result B) (g : A -> B) (l : list A) :
  (forall a, In a l -> f a = ok (g a)) -> rmap f l = ok (map g l).
Proof.
  induction l as [|a l IH]; simpl; intros H; [reflexivity|].
  rewrite (H a) by (left; reflexivity); simpl.
  rewrite IH by (intros; apply H; right; assumption).
  reflexivity.
Qed.

(** A traversal raises only what its function raises. *)
Lemma rmap_raises {A B} (f : A -> result B) (x : exn) (l : list A) (e : exn) :
  (forall a e', f a = raise e' -> e' = x) -> rmap f l = raise e -> e = x.
Proof.
  intros Hf; induction l as [|a l IH]; simpl; intros H.
  - discriminate.
  - destruct (f a) as [e'|b] eqn:Ea; simpl in H.
    + inversion H; subst. eapply Hf; eassumption.
    + destruct (rmap f l) as [e'|bs]; simpl in H; [|discriminate].
      inversion H; subst. apply IH; reflexivity.
Qed.

(** ** Ranges, slices and gathering *)

Lemma range_length (mi ma : Z) : length (Py.range mi ma) = Z.to_nat (ma - mi).
Proof. unfold Py.range. rewrite length_map, length_seq. reflexivity. Qed.

Lemma range_nil (mi ma : Z) : Py.range mi ma = [] <-> ma <= mi.
Proof.
  unfold Py.range. split; intros H.
  - apply (f_equal (@length Z)) in H.
    rewrite length_map, length_seq in H. simpl in H. lia.
  - replace (Z.to_nat (ma - mi)) with 0%nat by lia. reflexivity.
Qed.

Lemma range_cons (mi ma : Z) :
  mi < ma -> Py.range mi ma = mi :: Py.range (mi + 1) ma.
Proof.
  intros H. unfold Py.range.
  replace (Z.to_nat (ma - mi)) with (S (Z.to_nat (ma - (mi + 1)))) by lia.
  simpl. f_equal; [lia|].
  rewrite <- seq_shift, map_map.
  apply map_ext; intros i. lia.
Qed.

Lemma range_app (a b c : Z) :
  a <= b -> b <= c -> Py.range a b ++ Py.range b c = Py.range a c.
Proof.
  intros Hab Hbc.
  remember (Z.to_nat (b - a)) as n eqn:En.
  revert a Hab En; induction n as [|n IH]; intros a Hab En.
  - assert (a = b) by lia; subst.
    replace (Py.range b b) with (@nil Z); [reflexivity|].
    symmetry; apply range_nil; lia.
  - rewrite (range_cons a b) by lia.
    rewrite (range_cons a c) by lia.
    simpl. f_equal. apply IH; lia.
Qed.

Lemma range_In (mi ma i : Z) : In i (Py.range mi ma) <-> mi <= i < ma.
Proof.
  unfold Py.range. rewrite in_map_iff. split.
  - intros [j [Hj Hin]]. apply in_seq in Hin. lia.
  - intros H. exists (Z.to_nat (i - mi)). split; [lia|].
    apply in_seq. lia.
Qed.

Lemma range_NoDup (mi ma : Z) : NoDup (Py.range mi ma).
Proof.
  unfold Py.range. apply Finite.Injective_map_NoDup.
  - intros x y H. lia.
  - apply seq_NoDup.
Qed.



Lemma between_app {A} (l : list A) (a b c : Z) :
  0 <= a -> a <= b -> b <= c ->
  between l a b ++ between l b c = between l a c.
Proof.
  intros Ha Hab Hbc. unfold between.
  replace (Z.to_nat (c - a)) with (Z.to_nat (b - a) + Z.to_nat (c - b))%nat by lia.
  rewrite <- (firstn_skipn (Z.to_nat (b - a))
                (firstn (Z.to_nat (b - a) + Z.to_nat (c - b)) (skipn (Z.to_nat a) l))).
  rewrite firstn_firstn.
  replace (Nat.min (Z.to_nat (b - a)) (Z.to_nat (b - a) + Z.to_nat (c - b)))
    with (Z.to_nat (b - a)) by lia.
  f_equal.
  rewrite skipn_firstn_comm, skipn_skipn.
  replace (Z.to_nat (b - a) + Z.to_nat (c - b) - Z.to_nat (b - a))%nat
    with (Z.to_nat (c - b)) by lia.
  replace (Z.to_nat (b - a) + Z.to_nat a)%nat with (Z.to_nat b) by lia.
  reflexivity.
Qed.

Lemma between_all {A} (l : list A) : between l 0 (Z.of_nat (length l)) = l.
Proof.
  unfold between. simpl.
  replace (Z.to_nat (Z.of_nat (length l) - 0)) with (length l) by lia.
  apply firstn_all.
Qed.

Lemma take_raises {A} (l : list A) (inds : list Z) (e : exn) :
  Np.take l inds = raise e -> e = IndexError.
Proof.
  unfold Np.take. apply rmap_raises.
  intros i e'. unfold Np.norm_index.
  destruct ((- Z.of_nat (length l) <=? i) && (i <? Z.of_nat (length l))); simpl.
  - destruct (nth_error l _); intros H; inversion H; reflexivity.
  - intros H; inversion H; reflexivity.
Qed.

Lemma take_app {A} (l : list A) (i1 i2 : list Z) :
  Np.take l (i1 ++ i2)
  = (try x <- Np.take l i1; try y <- Np.take l i2; ok (x ++ y)).
Proof. apply rmap_app. Qed.

Lemma take_length {A} (l : list A) (inds : list Z) (r : list A) :
  Np.take l inds = ok r -> length r = length inds.
Proof. apply rmap_length. Qed.

(** Gathering at consecutive in-bounds indices yields the block of rows. *)
Lemma take_range {A} (l : list A) (lo hi : Z) :
  0 <= lo -> lo <= hi -> hi <= Z.of_nat (length l) ->
  Np.take l (Py.range lo hi) = ok (between l lo hi).
Proof.
  intros Hlo Hle Hhi.
  remember (Z.to_nat (hi - lo)) as n eqn:En.
  revert lo Hlo Hle En; induction n as [|n IH]; intros lo Hlo Hle En.
  - assert (lo = hi) by lia; subst.
    replace (Py.range hi hi) with (@nil Z) by (symmetry; apply range_nil; lia).
    unfold between. replace (Z.to_nat (hi - hi)) with 0%nat by lia.
    reflexivity.
  - rewrite range_cons by lia.
    change (Np.take l (lo :: Py.range (lo + 1) hi))
      with (try b <- (try j <- Np.norm_index (Z.of_nat (length l)) lo;
                      match nth_error l j with
                      | Some x => ok x
                      | None => raise IndexError
                      end);
            try bs <- Np.take l (Py.range (lo + 1) hi);
            ok (b :: bs)).
    rewrite IH by lia.
    unfold Np.norm_index.
    replace ((- Z.of_nat (length l) <=? lo) && (lo <? Z.of_nat (length l)))
      with true by (symmetry; apply andb_true_iff; split; lia).
    replace (lo <? 0) with false by (symmetry; apply Z.ltb_ge; lia).
    simpl.
    destruct (nth_error l (Z.to_nat lo)) as [x|] eqn:Ex.
    + simpl. f_equal. unfold between.
      replace (Z.to_nat (hi - lo)) with (S (Z.to_nat (hi - (lo + 1)))) by lia.
      replace (Z.to_nat (lo + 1)) with (1 + Z.to_nat lo)%nat by lia.
      rewrite <- skipn_skipn.
      destruct (skipn (Z.to_nat lo) l) as [|y t] eqn:Es.
      * apply (f_equal (@length A)) in Es.
        rewrite length_skipn in Es. simpl in Es. lia.
      * simpl. f_equal.
        pose proof (nth_error_skipn (Z.to_nat lo) l 0) as Hn.
        rewrite Es, Nat.add_0_r, Ex in Hn. simpl in Hn. congruence.
    + apply nth_error_None in Ex. lia.
Qed.

Example ex_world_reached :
  activations_setter ex_uninit ex_float32 ex_disk (Some (1, "hx")) ex_fresh
  = (ok tt, ex_world).
Proof. reflexivity. Qed.

Example ex_index_0 :
  fst (getitem ex_uninit ex_float32 ex_disk (KIndex (IInt 0)) ex_world)
  = ok (Np.NdArray 1%nat [[100]; [101]; [102]]).
Proof. reflexivity. Qed.

Example ex_index_key_5 :
  fst (getitem ex_uninit ex_float32 ex_disk (KTuple (IInt 5) [AStr "key"]) ex_world)
  = ok (Np.NdArray 1%nat [[105]; [106]; [107]]).
Proof. reflexivity. Qed.

Example ex_index_all_clamped :
  fst (getitem ex_uninit ex_float32 ex_disk
         (KTuple (ISlice (Py.Slice (Some 0) (Some 20) None)) [AStr "all"]) ex_world)
  = ok ex_matrix.
Proof. reflexivity. Qed.

(** ** Running the reader's methods *)

Section ReaderFacts.

Variables V L : Type.
Variable uninit : nat -> nat -> V.
Variable float32 : V -> V.
Variable disk : Disk V L.

Implicit Types (w : World V L) (d : ActivationRanges) (a : Np.ndarray V).

Lemma bind_ok {A B} (m : M V L A) (k : A -> M V L B) w (x : A) w' :
  m w = (ok x, w') -> bind m k w = k x w'.
Proof. intros H. unfold bind. rewrite H. reflexivity. Qed.

Lemma bind_raise {A B} (m : M V L A) (k : A -> M V L B) w (e : exn) w' :
  m w = (raise e, w') -> bind m k w = (raise e, w').
Proof. intros H. unfold bind. rewrite H. reflexivity. Qed.

Lemma bind_lift {A B} (r : result A) (k : A -> M V L B) w :
  bind (lift r) k w
  = match r with inl e => (inl e, w) | inr x => k x w end.
Proof. unfold bind, lift. destruct r; reflexivity. Qed.

Lemma name_eqb_refl (n : ActivationName) : name_eqb n n = true.
Proof.
  unfold name_eqb. rewrite Z.eqb_refl, String.eqb_refl. reflexivity.
Qed.

(** The [activation_ranges] property returns the reader's table and keeps
    serving it; it opens no activation file. *)
Lemma activation_ranges_run w d a :
  serves disk (self w) d a ->
  exists w',
    activation_ranges disk w = (ok d, w')
    /\ serves disk (self w') d a
    /\ no_activation_read (trace w) (trace w').
Proof.
  intros [Hr Ha]. unfold ranges_of in Hr.
  unfold activation_ranges, bind, get, load_pickle, bind, emit, modify, ret.
  destruct w as [s t]; simpl in *.
  destruct (_activation_ranges s) as [d'|] eqn:Ed.
  - inversion Hr; subst. eexists; split; [reflexivity|].
    split; [|intros p Hp; exact Hp].
    split; simpl; [unfold ranges_of; rewrite Ed; reflexivity|assumption].
  - rewrite Hr. unfold ret. eexists; split; [reflexivity|].
    split.
    + split; simpl; [reflexivity|assumption].
    + intros p Hp; simpl in Hp. apply in_app_or in Hp.
      destruct Hp as [Hp|[Hp|[]]]; [assumption|discriminate].
Qed.

(** A traversal whose steps return pure values on every world satisfying
    an invariant is the pure traversal. *)
Lemma mapM_run {A B} (I : World V L -> Prop) (f : A -> M V L B)
      (g : A -> result B) (l : list A) :
  (forall x w, In x l -> I w -> exists w', f x w = (g x, w') /\ I w') ->
  forall w, I w -> exists w', mapM f l w = (rmap g l, w') /\ I w'.
Proof.
  induction l as [|x l IH]; intros Hf w Hw; simpl.
  - exists w; split; [reflexivity|assumption].
  - destruct (Hf x w (or_introl eq_refl) Hw) as [w1 [E1 I1]].
    unfold bind at 1. rewrite E1.
    destruct (g x) as [e|b]; simpl.
    + exists w1; split; [reflexivity|assumption].
    + destruct (IH (fun y w' Hy => Hf y w' (or_intror Hy)) w1 I1)
        as [w2 [E2 I2]].
      unfold bind at 1. rewrite E2.
      destruct (rmap g l) as [e|bs]; simpl;
        exists w2; (split; [reflexivity|assumption]).
Qed.

(** Key-mode range lookup of a list of keys. *)
Lemma create_range_from_list_run w d a (l : list Z) :
  serves disk (self w) d a ->
  exists w',
    _create_range_from_key disk (IList l) w = (rmap (dict_get d) l, w')
    /\ serves disk (self w') d a.
Proof.
  intros Hs. simpl.
  apply (mapM_run (fun w => serves disk (self w) d a)); [|assumption].
  intros k w0 _ H0.
  destruct (activation_ranges_run w0 d a H0) as [w1 [E1 [S1 _]]].
  exists w1. rewrite (bind_ok _ _ _ _ _ E1). split; [reflexivity|assumption].
Qed.

Lemma activations_run w :
  activations w = (ok (_activations (self w)), w).
Proof. reflexivity. Qed.

(** The part of [__getitem__] after the ranges are known. *)
Lemma getitem_tail_run a (r : result (list Range)) w :
  bind (lift r)
       (fun ranges =>
          bind (lift (_create_indices_from_range ranges))
               (fun inds => lift (Np.getitem_array a inds))) w
  = ((try ranges <- r; gather a ranges), w).
Proof.
  rewrite bind_lift. destruct r as [e|ranges]; [reflexivity|].
  rewrite bind_lift. unfold gather. simpl.
  destruct (_create_indices_from_range ranges); reflexivity.
Qed.

(** Key-mode indexing, given the outcome of the range lookup. *)
Lemma getitem_key_run w a (index : ActivationIndex) (r : result (list Range)) w1 :
  _activations (self w) = Some a ->
  _create_range_from_key disk (wrap_int index) w = (r, w1) ->
  getitem uninit float32 disk (KTuple index [AStr "key"]) w
  = ((try ranges <- r; gather a ranges), w1).
Proof.
  intros Ha E1.
  unfold getitem.
  rewrite (bind_ok _ _ w (wrap_int index, "key") w) by reflexivity.
  rewrite (bind_ok _ _ w _ w (activations_run w)).
  rewrite Ha. cbv beta iota.
  change (String.eqb "key" "all") with false.
  change (String.eqb "key" "key") with true. cbv iota.
  unfold bind at 1. rewrite E1.
  destruct r as [e|ranges]; [reflexivity|].
  rewrite bind_lift. unfold gather. simpl.
  destruct (_create_indices_from_range ranges); reflexivity.
Qed.

(** Key-mode indexing with a list of keys. *)
Lemma getitem_key_list_run w d a (l : list Z) :
  serves disk (self w) d a ->
  exists w',
    getitem uninit float32 disk (KTuple (IList l) [AStr "key"]) w
    = ((try ranges <- rmap (dict_get d) l; gather a ranges), w')
    /\ serves disk (self w') d a.
Proof.
  intros Hs.
  destruct (create_range_from_list_run w d a l Hs) as [w1 [E1 S1]].
  exists w1. split; [|assumption].
  apply getitem_key_run; [apply Hs|exact E1].
Qed.

(** Key-mode indexing with a single key. *)
Lemma getitem_key_int_run w d a (k : Z) :
  serves disk (self w) d a ->
  exists w',
    getitem uninit float32 disk (KTuple (IInt k) [AStr "key"]) w
    = ((try r <- dict_get d k; gather a [r]), w')
    /\ serves disk (self w') d a.
Proof.
  intros Hs.
  destruct (create_range_from_list_run w d a [k] Hs) as [w1 [E1 S1]].
  exists w1. split; [|assumption].
  rewrite (getitem_key_run w a (IInt k) _ w1 (proj2 Hs) E1).
  simpl. destruct (dict_get d k); reflexivity.
Qed.

(** Position-mode indexing. *)
Lemma getitem_pos_run w d a (index : ActivationIndex) :
  serves disk (self w) d a ->
  exists w',
    getitem uninit float32 disk (KIndex index) w
    = ((try ranges <- index_axis0 (values d) (wrap_int index);
        gather a ranges), w')
    /\ serves disk (self w') d a.
Proof.
  intros Hs.
  destruct (activation_ranges_run w d a Hs) as [w1 [E1 [S1 _]]].
  exists w1. split; [|assumption].
  unfold getitem.
  rewrite (bind_ok _ _ w (wrap_int index, "pos") w) by reflexivity.
  rewrite (bind_ok _ _ w _ w (activations_run w)).
  rewrite (proj2 Hs). cbv beta iota.
  change (String.eqb "pos" "all") with false.
  change (String.eqb "pos" "key") with false. cbv iota.
  unfold bind at 1. rewrite (bind_ok _ _ _ _ _ E1).
  unfold lift at 1.
  destruct (index_axis0 (values d) (wrap_int index)) as [e|ranges];
    [reflexivity|].
  rewrite bind_lift. unfold gather. simpl.
  destruct (_create_indices_from_range ranges); reflexivity.
Qed.


(** *** The table as a dict *)

Lemma dict_get_In d (k : Z) (r : Range) :
  dict_wf d -> In (k, r) d -> dict_get d k = ok r.
Proof.
  unfold dict_wf, keys.
  induction d as [|[k' r'] d IH]; simpl; intros Hnd Hin; [contradiction|].
  inversion Hnd as [|? ? Hnotin Hnd']; subst.
  destruct Hin as [Heq|Hin].
  - inversion Heq; subst. rewrite Z.eqb_refl. reflexivity.
  - destruct (Z.eqb_spec k' k) as [->|Hne].
    + exfalso. apply Hnotin.
      change k with (fst (k, r)). apply in_map. assumption.
    + apply IH; assumption.
Qed.

Lemma dict_get_nth d (i : nat) (k : Z) :
  dict_wf d -> nth_error (keys d) i = Some k ->
  exists r, nth_error (values d) i = Some r /\ dict_get d k = ok r.
Proof.
  intros Hwf Hk. unfold keys, values in *.
  rewrite nth_error_map in Hk. rewrite nth_error_map.
  destruct (nth_error d i) as [[k' r]|] eqn:En; simpl in *; [|discriminate].
  inversion Hk; subst. exists r. split; [reflexivity|].
  apply dict_get_In; [assumption|]. eapply nth_error_In; eassumption.
Qed.

Lemma rmap_map {A B C} (f : B -> result C) (p : A -> B) (l : list A) :
  rmap f (map p l) = rmap (fun x => f (p x)) l.
Proof.
  induction l as [|x l IH]; simpl; [reflexivity|]. rewrite IH. reflexivity.
Qed.

(** *** Tiling ranges *)

Lemma tiles_bounds (rs : list Range) (lo hi s e : Z) :
  tiles rs lo hi = true -> In (s, e) rs -> lo <= s /\ s < e /\ e <= hi.
Proof.
  revert lo; induction rs as [|[s' e'] rs IH]; simpl; intros lo Ht Hin;
    [contradiction|].
  apply andb_true_iff in Ht. destruct Ht as [Ht Hrest].
  apply andb_true_iff in Ht. destruct Ht as [Hs Hlt].
  apply Z.eqb_eq in Hs. apply Z.ltb_lt in Hlt. subst s'.
  assert (Hle : e' <= hi).
  { clear IH Hin. revert e' Hrest Hlt. generalize lo.
    induction rs as [|[s2 e2] rs IH2]; simpl; intros lo' e' Hrest Hlt.
    - apply Z.eqb_eq in Hrest. lia.
    - apply andb_true_iff in Hrest. destruct Hrest as [Ht2 Hrest2].
      apply andb_true_iff in Ht2. destruct Ht2 as [Hs2 Hlt2].
      apply Z.eqb_eq in Hs2. apply Z.ltb_lt in Hlt2. subst s2.
      specialize (IH2 e' e2 Hrest2 Hlt2). lia. }
  destruct Hin as [Heq|Hin].
  - inversion Heq; subst. lia.
  - specialize (IH e' Hrest Hin). lia.
Qed.

Lemma tiles_le (rs : list Range) (lo hi : Z) :
  tiles rs lo hi = true -> lo <= hi.
Proof.
  destruct rs as [|[s e] rs]; simpl; intros Ht.
  - apply Z.eqb_eq in Ht. lia.
  - destruct (tiles_bounds ((s, e) :: rs) lo hi s e Ht (or_introl eq_refl)).
    lia.
Qed.

(** The row indices of tiling ranges are exactly [lo, hi), each once and
    in increasing order: no gap and no overlap. *)
Lemma tiles_indices (rs : list Range) (lo hi : Z) :
  tiles rs lo hi = true ->
  concat (map (fun r => Py.range (fst r) (snd r)) rs) = Py.range lo hi.
Proof.
  revert lo; induction rs as [|[s e] rs IH]; simpl; intros lo Ht.
  - apply Z.eqb_eq in Ht. subst. symmetry. apply range_nil. lia.
  - pose proof Ht as Ht'.
    apply andb_true_iff in Ht. destruct Ht as [Ht Hrest].
    apply andb_true_iff in Ht. destruct Ht as [Hs Hlt].
    apply Z.eqb_eq in Hs. apply Z.ltb_lt in Hlt. subst s.
    rewrite (IH e Hrest).
    apply range_app; [lia|]. apply (tiles_le rs); assumption.
Qed.

Lemma tiles_blocks {A} (l : list A) (rs : list Range) (lo hi : Z) :
  0 <= lo -> tiles rs lo hi = true ->
  concat (map (fun r => between l (fst r) (snd r)) rs) = between l lo hi.
Proof.
  revert lo; induction rs as [|[s e] rs IH]; simpl; intros lo Hlo Ht.
  - apply Z.eqb_eq in Ht. subst. unfold between.
    replace (Z.to_nat (hi - hi)) with 0%nat by lia. reflexivity.
  - apply andb_true_iff in Ht. destruct Ht as [Ht Hrest].
    apply andb_true_iff in Ht. destruct Ht as [Hs Hlt].
    apply Z.eqb_eq in Hs. apply Z.ltb_lt in Hlt. subst s.
    rewrite (IH e) by (assumption || lia).
    apply between_app; [lia|lia|]. apply (tiles_le rs); assumption.
Qed.

End ReaderFacts.

(** ** Indexing by key and by position *)

Section Indexing.

Variables V L : Type.
Variable uninit : nat -> nat -> V.
Variable float32 : V -> V.
Variable disk : Disk V L.

Implicit Types (w : World V L) (d : ActivationRanges) (a : Np.ndarray V).


Lemma take_one {A} (l : list A) (i : Z) (x : A) :
  0 <= i < Z.of_nat (length l) ->
  nth_error l (Z.to_nat i) = Some x ->
  Np.take l [i] = ok [x].
Proof.
  intros Hi Hx. unfold Np.take. simpl. unfold Np.norm_index.
  replace ((- Z.of_nat (length l) <=? i) && (i <? Z.of_nat (length l)))
    with true by (symmetry; apply andb_true_iff; split; lia).
  replace (i <? 0) with false by (symmetry; apply Z.ltb_ge; lia).
  simpl. rewrite Hx. reflexivity.
Qed.

(** C2.  For a valid position [i], [reader[i]] returns what
    [reader[k, 'key']] returns for [k] the [i]-th key of the RangeTable
    in its insertion order. *)
Theorem getitem_pos_eq_key w d a (i k : Z) :
  serves disk (self w) d a ->
  dict_wf d ->
  0 <= i < Z.of_nat (length d) ->
  nth_error (keys d) (Z.to_nat i) = Some k ->
  fst (getitem uninit float32 disk (KIndex (IInt i)) w)
  = fst (getitem uninit float32 disk (KTuple (IInt k) [AStr "key"]) w).
Proof.
  intros Hs Hwf Hi Hk.
  destruct (getitem_pos_run V L uninit float32 disk w d a (IInt i) Hs)
    as [w1 [E1 _]].
  destruct (getitem_key_int_run V L uninit float32 disk w d a k Hs)
    as [w2 [E2 _]].
  rewrite E1, E2. simpl fst.
  destruct (dict_get_nth d (Z.to_nat i) k Hwf Hk) as [r [Hv Hd]].
  rewrite Hd. simpl.
  rewrite (take_one (values d) i r); [reflexivity| |assumption].
  unfold values. rewrite length_map. assumption.
Qed.

(** Gathering two ranges is gathering each and concatenating, also in
    what is raised. *)
Lemma gather_pair a (r1 r2 : Range) :
  gather a [r1; r2]
  = (try x <- gather a [r1]; try y <- gather a [r2]; ok (concatenate_rows x y)).
Proof.
  unfold gather, _create_indices_from_range. simpl map.
  generalize (Py.range (fst r1) (snd r1)) as R1.
  generalize (Py.range (fst r2) (snd r2)) as R2.
  intros R2 R1.
  unfold Np.concatenate, Np.getitem_array, Np.take_array, concatenate_rows.
  destruct R1 as [|x1 t1]; [reflexivity|].
  destruct R2 as [|x2 t2]; simpl; rewrite !app_nil_r.
  - destruct (Np.take (Np.rows a) (x1 :: t1)) as [e|rs] eqn:Et;
      [|reflexivity].
    apply take_raises in Et. subst. reflexivity.
  - change (x1 :: t1 ++ x2 :: t2) with ((x1 :: t1) ++ (x2 :: t2)).
    rewrite take_app.
    destruct (Np.take (Np.rows a) (x1 :: t1)); [reflexivity|]. simpl.
    destruct (Np.take (Np.rows a) (x2 :: t2)); reflexivity.
Qed.

(** C7.  For keys [k1] and [k2] of the RangeTable,
    [reader[[k1, k2], 'key']] is the concatenation of [reader[k1, 'key']]
    followed by [reader[k2, 'key']]; when one of the two lookups raises,
    so does the list lookup, with the same exception. *)
Theorem getitem_key_pair_concat w d a (k1 k2 : Z) (r1 r2 : Range) :
  serves disk (self w) d a ->
  dict_get d k1 = ok r1 ->
  dict_get d k2 = ok r2 ->
  let first := getitem uninit float32 disk (KTuple (IInt k1) [AStr "key"]) w in
  let second :=
    getitem uninit float32 disk (KTuple (IInt k2) [AStr "key"]) (snd first) in
  fst (getitem uninit float32 disk (KTuple (IList [k1; k2]) [AStr "key"]) w)
  = (try x <- fst first; try y <- fst second; ok (concatenate_rows x y)).
Proof.
  intros Hs H1 H2 first second. subst first second.
  destruct (getitem_key_list_run V L uninit float32 disk w d a [k1; k2] Hs)
    as [w0 [E0 _]].
  destruct (getitem_key_int_run V L uninit float32 disk w d a k1 Hs)
    as [w1 [E1 S1]].
  rewrite E1. simpl snd.
  destruct (getitem_key_int_run V L uninit float32 disk w1 d a k2 S1)
    as [w2 [E2 _]].
  rewrite E0, E2. simpl fst. simpl rmap. rewrite H1, H2. simpl rbind.
  apply gather_pair.
Qed.


End Indexing.

(** ** Slices in key mode and in position mode *)

Section Slices.

Variables V L : Type.
Variable uninit : nat -> nat -> V.
Variable float32 : V -> V.
Variable disk : Disk V L.

Implicit Types (w : World V L) (d : ActivationRanges) (a : Np.ndarray V).


Lemma fold_max_ge (l : list Z) (x : Z) :
  x <= fold_left Z.max l x /\ forall k, In k l -> k <= fold_left Z.max l x.
Proof.
  revert x; induction l as [|y l IH]; simpl; intros x.
  - split; [lia|intros k []].
  - destruct (IH (Z.max x y)) as [H1 H2]. split; [lia|].
    intros k [<-|Hk]; [lia|apply H2; assumption].
Qed.

Lemma max_keys_bound d (m : Z) :
  Py.max (keys d) = ok m -> forall kr, In kr d -> fst kr < m + 1.
Proof.
  unfold Py.max. destruct d as [|[k0 r0] d]; simpl; [discriminate|].
  intros H kr Hin. inversion H; subst.
  destruct (fold_max_ge (keys d) k0) as [H1 H2].
  destruct Hin as [<-|Hin]; simpl; [lia|].
  assert (fst kr <= fold_left Z.max (keys d) k0); [|lia].
  apply H2. unfold keys. apply in_map. assumption.
Qed.

(** Key-mode range lookup of a unit-step slice whose stop bound is absent
    or zero. *)
Lemma create_range_open_slice_run w d a (start stop step : option Z) :
  serves disk (self w) d a ->
  d <> [] ->
  step = None \/ step = Some 1 ->
  stop = None \/ stop = Some 0 ->
  exists w',
    _create_range_from_key disk (ISlice (Py.Slice start stop step)) w
    = (ok (map snd (filter (fun kr => match start with
                                      | Some lo => lo
                                      | None => 0
                                      end <=? fst kr) d)), w')
    /\ serves disk (self w') d a.
Proof.
  intros Hs Hne Hstep Hstop.
  destruct (activation_ranges_run V L disk w d a Hs) as [w1 [E1 [S1 _]]].
  destruct (activation_ranges_run V L disk w1 d a S1) as [w2 [E2 [S2 _]]].
  exists w2. split; [|assumption].
  unfold _create_range_from_key. simpl Py.step. simpl Py.start. simpl Py.stop.
  assert (Hassert : match step with None => true | Some st => st =? 1 end = true)
    by (destruct Hstep; subst; reflexivity).
  rewrite Hassert. unfold assert.
  rewrite (bind_ok V L _ _ w tt w) by reflexivity.
  destruct (Py.max (keys d)) as [e|m] eqn:Em.
  { destruct d; [contradiction|discriminate]. }
  assert (Hstopv :
            (match stop with
             | Some b =>
                 if Py.truthy stop then ret b
                 else bind (activation_ranges disk)
                           (fun d0 => bind (lift (Py.max (keys d0)))
                                           (fun m0 => ret (m0 + 1)))
             | None =>
                 bind (activation_ranges disk)
                      (fun d0 => bind (lift (Py.max (keys d0)))
                                      (fun m0 => ret (m0 + 1)))
             end) w = (ok (m + 1), w1)).
  { assert (Hb : bind (activation_ranges disk)
                      (fun d0 => bind (lift (Py.max (keys d0)))
                                      (fun m0 => ret (m0 + 1))) w
                 = (ok (m + 1), w1)).
    { rewrite (bind_ok V L _ _ _ _ _ E1). rewrite bind_lift, Em. reflexivity. }
    destruct Hstop; subst; simpl; exact Hb. }
  rewrite (bind_ok V L _ _ _ _ _ Hstopv).
  rewrite (bind_ok V L _ _ _ _ _ E2).
  unfold ret, ok. f_equal. f_equal. f_equal.
  apply filter_ext_in. intros kr Hin.
  pose proof (max_keys_bound d m Em kr Hin) as Hlt.
  replace (fst kr <? m + 1) with true by (symmetry; apply Z.ltb_lt; assumption).
  rewrite andb_true_r.
  destruct start as [lo|]; [|reflexivity].
  simpl. destruct (Z.eqb_spec lo 0); subst; reflexivity.
Qed.

(** C10.  A key-mode slice whose stop bound is the integer 0 is looked up
    as the slice without stop bound: the two lookups coincide.  On a
    non-empty table the stop bound is taken one past the largest key, so
    that the rows of every range whose key is at least the start bound are
    returned, not an empty selection. *)
Theorem key_slice_stop_zero_as_absent w (start step : option Z) :
  getitem uninit float32 disk
    (KTuple (ISlice (Py.Slice start (Some 0) step)) [AStr "key"]) w
  = getitem uninit float32 disk
      (KTuple (ISlice (Py.Slice start None step)) [AStr "key"]) w
  /\ forall d a,
      serves disk (self w) d a ->
      d <> [] ->
      step = None \/ step = Some 1 ->
      fst (getitem uninit float32 disk
             (KTuple (ISlice (Py.Slice start (Some 0) step)) [AStr "key"]) w)
      = gather a (map snd (filter (fun kr => match start with
                                             | Some lo => lo
                                             | None => 0
                                             end <=? fst kr) d)).
Proof.
  split.
  - reflexivity.
  - intros d a Hs Hne Hstep.
    destruct (create_range_open_slice_run w d a start (Some 0) step Hs Hne Hstep
                (or_intror eq_refl)) as [w1 [E1 _]].
    rewrite (getitem_key_run V L uninit float32 disk w a
               (ISlice (Py.Slice start (Some 0) step)) _ w1 (proj2 Hs) E1).
    reflexivity.
Qed.

End Slices.

(** ** The [activations] setter *)

Section Setter.

Variables V L : Type.
Variable uninit : nat -> nat -> V.
Variable float32 : V -> V.
Variable disk : Disk V L.

(** C9.  On a reader whose active identity is [A], assigning [None] to
    [activations] and then assigning [A] again leaves the cached matrix
    [None]: the second assignment finds [A] to be the current identity,
    reads no file and changes nothing. *)
Theorem clear_then_reselect_stays_none (w : World V L) (A : ActivationName) :
  activation_name (self w) = Some A ->
  let cleared := snd (activations_setter uninit float32 disk None w) in
  let again := activations_setter uninit float32 disk (Some A) cleared in
  fst again = ok tt
  /\ snd again = cleared
  /\ _activations (self (snd again)) = None
  /\ activation_name (self (snd again)) = Some A
  /\ trace (snd again) = trace w.
Proof.
  intros HA cleared again. subst again cleared.
  unfold activations_setter. simpl snd.
  unfold bind, get. simpl. rewrite HA, name_eqb_refl. simpl.
  repeat split; assumption.
Qed.

End Setter.

(** ** Labels and the sequence count *)

Section Labels.

Variables V L : Type.
Variable uninit : nat -> nat -> V.
Variable float32 : V -> V.
Variable disk : Disk V L.

Implicit Types (w : World V L) (ls : list L).

Lemma only_labels_touched_refl w : only_labels_touched w w.
Proof. repeat split; try reflexivity. intros p Hp; exact Hp. Qed.

Lemma only_labels_touched_trans w1 w2 w3 :
  only_labels_touched w1 w2 -> only_labels_touched w2 w3 ->
  only_labels_touched w1 w3.
Proof.
  intros [A1 [B1 [C1 [D1 [E1 F1]]]]] [A2 [B2 [C2 [D2 [E2 F2]]]]].
  repeat split; try congruence.
  intros p Hp. apply F1, F2, Hp.
Qed.

Lemma labels_run w ls :
  labelled disk (self w) ls ->
  exists w',
    labels disk w = (ok ls, w')
    /\ labelled disk (self w') ls
    /\ only_labels_touched w w'.
Proof.
  intros [Hl Hd]. unfold labels_of in Hl.
  unfold labels, bind, get, load_pickle, bind, emit, modify, ret.
  destruct w as [s t]; simpl in *.
  destruct (_labels s) as [ls'|] eqn:El.
  - inversion Hl; subst. eexists; split; [reflexivity|]. split.
    + split; simpl; [unfold labels_of; rewrite El; reflexivity|assumption].
    + apply only_labels_touched_refl.
  - rewrite Hl. unfold ret. eexists; split; [reflexivity|]. split.
    + split; simpl; [reflexivity|assumption].
    + repeat split. intros p Hp; simpl in Hp. apply in_app_or in Hp.
      destruct Hp as [Hp|[Hp|[]]]; [assumption|discriminate].
Qed.

Lemma data_len_run w ls :
  labelled disk (self w) ls ->
  exists w',
    data_len disk w = (ok (Z.of_nat (length ls)), w')
    /\ labelled disk (self w') ls
    /\ only_labels_touched w w'.
Proof.
  intros Hl. unfold data_len.
  rewrite (bind_ok V L _ _ w (self w) w) by reflexivity.
  destruct (Z.eqb_spec (_data_len (self w)) (-1)) as [Heq|Hne].
  - destruct (labels_run w ls Hl) as [w1 [E1 [L1 T1]]].
    rewrite (bind_ok V L _ _ _ _ _ E1).
    unfold bind, modify, ret. simpl.
    eexists; split; [reflexivity|]. split.
    + destruct L1 as [L1 _]. split; simpl; [exact L1|right; reflexivity].
    + destruct T1 as [A1 [B1 [C1 [D1 [E1' F1]]]]].
      repeat split; simpl; assumption.
  - exists w. split; [|split; [assumption|apply only_labels_touched_refl]].
    unfold ret. destruct Hl as [_ [Hd|Hd]]; [contradiction|].
    rewrite Hd. reflexivity.
Qed.

(** C8.  A subset size other than the sentinel [-1] that violates
    [0 < data_subset_size <= data_len] makes [create_data_split] fail with
    an [AssertionError] before any activation loading: no activation file
    is opened and the cached matrix is untouched.  For a size that is not
    positive nothing at all is read: the reader and the trace are as
    before. *)
Theorem invalid_subset_size_fails_before_loading w ls
        (name : ActivationName) (size : Z) (ratio : Py.float)
        (choice : Z -> list Z) :
  labelled disk (self w) ls ->
  size <> -1 ->
  ~ (0 < size <= Z.of_nat (length ls)) ->
  let r := create_data_split uninit float32 disk name size ratio choice w in
  fst r = raise AssertionError
  /\ no_activation_read (trace w) (trace (snd r))
  /\ _activations (self (snd r)) = _activations (self w)
  /\ (size <= 0 -> snd r = w).
Proof.
  intros Hl Hne Hbad r. subst r.
  unfold create_data_split.
  replace (size =? -1) with false by (symmetry; apply Z.eqb_neq; assumption).
  cbv beta iota delta [negb].
  destruct (Z.ltb_spec 0 size) as [Hpos|Hnonpos].
  - destruct (data_len_run w ls Hl) as [w1 [E1 [_ T1]]].
    assert (Hassert :
              bind (data_len disk)
                   (fun dl => assert V L (size <=? dl)) w
              = (raise AssertionError, w1)).
    { rewrite (bind_ok V L _ _ _ _ _ E1).
      replace (size <=? Z.of_nat (length ls)) with false; [reflexivity|].
      symmetry. apply Z.leb_gt. lia. }
    rewrite (bind_raise V L _ _ _ _ _ Hassert). simpl.
    destruct T1 as [_ [_ [C1 [_ [_ F1]]]]]. split; [reflexivity|].
    split; [assumption|]. split; [assumption|]. intros Hle. lia.
  - rewrite (bind_raise V L _ _ w AssertionError w) by reflexivity. simpl.
    split; [reflexivity|]. split; [intros p Hp; exact Hp|].
    split; reflexivity.
Qed.

End Labels.

(** ** Loading activations *)

Section Loading.

Variables V L : Type.
Variable uninit : nat -> nat -> V.
Variable float32 : V -> V.
Variable disk : Disk V L.

Implicit Types (w : World V L) (ls : list L) (a c : Np.ndarray V).

Lemma range_len_unit (lo hi : Z) : Py.range_len lo hi 1 = Z.to_nat (hi - lo).
Proof.
  unfold Py.range_len. change (0 <? 1) with true. cbv iota.
  destruct (Z.ltb_spec lo hi); [|lia].
  rewrite Z.div_1_r. lia.
Qed.

Lemma slice_indices_nonneg (lo hi len : Z) :
  0 <= lo -> 0 <= hi ->
  Py.slice_indices (Py.Slice (Some lo) (Some hi) None) len
  = ok (Z.min lo len, Z.min hi len, 1).
Proof.
  intros Hlo Hhi. unfold Py.slice_indices. simpl.
  replace (lo <? 0) with false by (symmetry; apply Z.ltb_ge; lia).
  replace (hi <? 0) with false by (symmetry; apply Z.ltb_ge; lia).
  reflexivity.
Qed.

(** The assignment [a[n:n+i] = c] spelled out for [n >= 0]. *)
Lemma setslice_nonneg a c (n : Z) :
  0 <= n ->
  Np.setslice float32 a n (n + Np.len c) c
  = let lo := Z.to_nat (Z.min n (Np.len a)) in
    let k := Z.to_nat (Z.min (n + Np.len c) (Np.len a) - Z.min n (Np.len a)) in
    let i := length (Np.rows c) in
    if ((i =? k)%nat || (i =? 1)%nat)
       && ((Np.ncols c =? Np.ncols a)%nat || (Np.ncols c =? 1)%nat)
    then
      let fit_row r :=
        if (Np.ncols c =? Np.ncols a)%nat then map float32 r
        else flat_map (fun x => repeat (float32 x) (Np.ncols a)) r in
      ok (Np.NdArray (Np.ncols a)
            (firstn lo (Np.rows a)
             ++ (if (i =? k)%nat then map fit_row (Np.rows c)
                 else flat_map (fun r => repeat (fit_row r) k) (Np.rows c))
             ++ skipn (lo + k) (Np.rows a)))
    else raise ValueError.
Proof.
  intros Hn. unfold Np.setslice.
  rewrite slice_indices_nonneg by (unfold Np.len; lia).
  simpl rbind. rewrite range_len_unit. reflexivity.
Qed.

Lemma setslice_raises a c (n : Z) (e : exn) :
  0 <= n -> Np.setslice float32 a n (n + Np.len c) c = raise e -> e = ValueError.
Proof.
  intros Hn. rewrite setslice_nonneg by assumption. cbv zeta.
  destruct (_ && _); intros H; inversion H; reflexivity.
Qed.

(** A successful assignment keeps the shape of the array. *)
Lemma setslice_shape a c (n : Z) a' :
  0 <= n -> Np.setslice float32 a n (n + Np.len c) c = ok a' ->
  Np.ncols a' = Np.ncols a /\ Np.len a' = Np.len a.
Proof.
  intros Hn. rewrite setslice_nonneg by assumption. cbv zeta.
  destruct (_ && _) eqn:Hc; intros H; inversion H; subst; clear H.
  split; [reflexivity|].
  apply andb_true_iff in Hc. destruct Hc as [Hrows _].
  unfold Np.len in *. simpl. f_equal.
  rewrite !length_app, length_firstn, length_skipn.
  set (k := Z.to_nat (Z.min (n + Z.of_nat (length (Np.rows c)))
                            (Z.of_nat (length (Np.rows a)))
                      - Z.min n (Z.of_nat (length (Np.rows a))))) in *.
  assert (Hnew :
            length (if (length (Np.rows c) =? k)%nat
                    then map (fun r =>
                                if (Np.ncols c =? Np.ncols a)%nat
                                then map float32 r
                                else flat_map (fun x => repeat (float32 x) (Np.ncols a)) r)
                             (Np.rows c)
                    else flat_map
                           (fun r => repeat
                                       (if (Np.ncols c =? Np.ncols a)%nat
                                        then map float32 r
                                        else flat_map (fun x => repeat (float32 x) (Np.ncols a)) r)
                                       k)
                           (Np.rows c)) = k).
  { destruct (Nat.eqb_spec (length (Np.rows c)) k) as [Heq|Hneq].
    - rewrite length_map. assumption.
    - simpl in Hrows. apply Nat.eqb_eq in Hrows.
      destruct (Np.rows c) as [|r [|r' t]]; simpl in Hrows; try discriminate.
      simpl. rewrite app_nil_r, repeat_length. reflexivity. }
  rewrite Hnew. subst k. lia.
Qed.

(** A dump that fits in the remaining rows and has the width of the array
    is copied in place. *)
Lemma setslice_fits a c (n : Z) :
  0 <= n -> n + Np.len c <= Np.len a -> Np.ncols c = Np.ncols a ->
  Np.setslice float32 a n (n + Np.len c) c
  = ok (Np.NdArray (Np.ncols a)
          (firstn (Z.to_nat n) (Np.rows a)
           ++ map (map float32) (Np.rows c)
           ++ skipn (Z.to_nat (n + Np.len c)) (Np.rows a))).
Proof.
  intros Hn Hfit Hw. rewrite setslice_nonneg by assumption. cbv zeta.
  assert (Hc : 0 <= Np.len c) by (unfold Np.len; lia).
  rewrite !Z.min_l by lia.
  replace (Z.to_nat (n + Np.len c - n)) with (length (Np.rows c))
    by (unfold Np.len; lia).
  rewrite Hw, !Nat.eqb_refl. simpl.
  replace (Z.to_nat n + length (Np.rows c))%nat with (Z.to_nat (n + Np.len c))
    by (unfold Np.len; lia).
  reflexivity.
Qed.

(** A dump of more than one row that runs past the last row is refused. *)
Lemma setslice_overflow a c (n : Z) :
  0 <= n -> Np.len a < n + Np.len c -> 1 < Np.len c ->
  Np.setslice float32 a n (n + Np.len c) c = raise ValueError.
Proof.
  intros Hn Hover Hone. rewrite setslice_nonneg by assumption. cbv zeta.
  replace ((length (Np.rows c) =? _)%nat || (length (Np.rows c) =? 1)%nat)
    with false; [reflexivity|].
  symmetry. apply orb_false_iff. unfold Np.len in *.
  split; apply Nat.eqb_neq; lia.
Qed.

(** A dump whose column count is neither that of the array nor 1 is
    refused. *)
Lemma setslice_bad_width a c (n : Z) :
  0 <= n -> Np.ncols c <> Np.ncols a -> Np.ncols c <> 1%nat ->
  Np.setslice float32 a n (n + Np.len c) c = raise ValueError.
Proof.
  intros Hn Hw Hone. rewrite setslice_nonneg by assumption. cbv zeta.
  replace ((Np.ncols c =? Np.ncols a)%nat || (Np.ncols c =? 1)%nat)
    with false; [rewrite andb_false_r; reflexivity|].
  symmetry. apply orb_false_iff. split; apply Nat.eqb_neq; assumption.
Qed.

(** *** The loop *)

Lemma read_loop_fill (dumps : list (Np.ndarray V)) (h : nat) a (n : Z) w :
  read_loop uninit float32 disk dumps (Some h) (Some a) n w
  = ((try a' <- fill float32 dumps a n; ok (Some a')), w).
Proof.
  revert a n; induction dumps as [|c dumps IH]; intros a n; [reflexivity|].
  simpl read_loop.
  rewrite (bind_ok V L _ _ w (Some h, Some a) w) by reflexivity.
  cbv beta iota delta [snd fst]. rewrite bind_lift. simpl fill.
  destruct (Np.setslice float32 a n (n + Np.len c) c) as [e|a1];
    [reflexivity|].
  simpl. apply IH.
Qed.

Lemma len_nonneg c : 0 <= Np.len c.
Proof. unfold Np.len. lia. Qed.

Lemma fill_raises (dumps : list (Np.ndarray V)) a (n : Z) (e : exn) :
  0 <= n -> fill float32 dumps a n = raise e -> e = ValueError.
Proof.
  revert a n; induction dumps as [|c dumps IH]; simpl; intros a n Hn H;
    [discriminate|].
  destruct (Np.setslice float32 a n (n + Np.len c) c) as [e'|a1] eqn:Es;
    simpl in H.
  - inversion H; subst. eapply setslice_raises; eassumption.
  - apply (IH a1 (n + Np.len c)); [pose proof (len_nonneg c); lia|assumption].
Qed.

Lemma fill_shape (dumps : list (Np.ndarray V)) a (n : Z) a' :
  0 <= n -> fill float32 dumps a n = ok a' ->
  Np.ncols a' = Np.ncols a /\ Np.len a' = Np.len a.
Proof.
  revert a n; induction dumps as [|c dumps IH]; simpl; intros a n Hn H.
  - inversion H; subst. split; reflexivity.
  - destruct (Np.setslice float32 a n (n + Np.len c) c) as [e'|a1] eqn:Es;
      simpl in H; [discriminate|].
    destruct (setslice_shape a c n a1 Hn Es) as [S1 S2].
    destruct (IH a1 (n + Np.len c) ltac:(pose proof (len_nonneg c); lia) H)
      as [I1 I2].
    split; congruence.
Qed.

Lemma total_rows_nonneg (dumps : list (Np.ndarray V)) : 0 <= total_rows dumps.
Proof.
  induction dumps as [|c dumps IH]; simpl; [lia|].
  pose proof (len_nonneg c). lia.
Qed.

(** Dumps of the width of the array that fit in its remaining rows are
    all copied, in order, from row [n] on; the other rows are kept. *)
Lemma fill_fits (dumps : list (Np.ndarray V)) a (n : Z) :
  0 <= n ->
  same_width (Np.ncols a) dumps = true ->
  n + total_rows dumps <= Np.len a ->
  fill float32 dumps a n
  = ok (Np.NdArray (Np.ncols a)
          (firstn (Z.to_nat n) (Np.rows a)
           ++ map (map float32) (concat (map Np.rows dumps))
           ++ skipn (Z.to_nat (n + total_rows dumps)) (Np.rows a))).
Proof.
  revert a n; induction dumps as [|c dumps IH]; intros a n Hn Hw Hfit.
  - simpl. rewrite Z.add_0_r, firstn_skipn. destruct a; reflexivity.
  - simpl in Hw, Hfit. apply andb_true_iff in Hw. destruct Hw as [Hc Hw].
    apply Nat.eqb_eq in Hc.
    pose proof (len_nonneg c) as Hlc.
    pose proof (total_rows_nonneg dumps) as Htr.
    simpl fill. rewrite setslice_fits by (assumption || lia). simpl rbind.
    rewrite IH; simpl Np.ncols; simpl Np.rows;
      [|lia|assumption|].
    + f_equal. f_equal. simpl concat. rewrite map_app.
      set (X := firstn (Z.to_nat n) (Np.rows a)).
      set (Y := map (map float32) (Np.rows c)).
      set (Z0 := skipn (Z.to_nat (n + Np.len c)) (Np.rows a)).
      assert (HX : length X = Z.to_nat n).
      { subst X. rewrite length_firstn. unfold Np.len in *. lia. }
      assert (HY : length Y = Z.to_nat (Np.len c)).
      { subst Y. rewrite length_map. unfold Np.len. lia. }
      assert (HXY : length (X ++ Y) = Z.to_nat (n + Np.len c)).
      { rewrite length_app. lia. }
      rewrite (app_assoc X Y Z0).
      rewrite firstn_app, <- HXY, firstn_all, Nat.sub_diag. simpl firstn.
      rewrite app_nil_r.
      rewrite skipn_app.
      rewrite (skipn_all2 (X ++ Y)) by lia.
      simpl app.
      replace (Z.to_nat (n + Np.len c + total_rows dumps) - length (X ++ Y))%nat
        with (Z.to_nat (total_rows dumps)) by lia.
      subst Z0. rewrite skipn_skipn.
      replace (Z.to_nat (total_rows dumps) + Z.to_nat (n + Np.len c))%nat
        with (Z.to_nat (n + (Np.len c + total_rows dumps))) by lia.
      rewrite <- !app_assoc. reflexivity.
    + unfold Np.len at 2. simpl Np.rows.
      rewrite !length_app, length_firstn, length_map, length_skipn.
      unfold Np.len in *. lia.
Qed.

Lemma fill_bad_width (pre post : list (Np.ndarray V)) c a (n : Z) :
  0 <= n -> Np.ncols c <> Np.ncols a -> Np.ncols c <> 1%nat ->
  fill float32 (pre ++ c :: post) a n = raise ValueError.
Proof.
  revert a n; induction pre as [|x pre IH]; intros a n Hn Hw Hone.
  - simpl. rewrite setslice_bad_width by assumption. reflexivity.
  - simpl.
    destruct (Np.setslice float32 a n (n + Np.len x) x) as [e|a1] eqn:Es.
    + apply setslice_raises in Es; [subst; reflexivity|assumption].
    + simpl. destruct (setslice_shape a x n a1 Hn Es) as [S1 _].
      apply IH; [pose proof (len_nonneg x); lia|congruence|assumption].
Qed.

Lemma fill_overflow (pre post : list (Np.ndarray V)) c a (n : Z) :
  0 <= n -> Np.len a < n + total_rows pre + Np.len c -> 1 < Np.len c ->
  fill float32 (pre ++ c :: post) a n = raise ValueError.
Proof.
  revert a n; induction pre as [|x pre IH]; intros a n Hn Hover Hone.
  - simpl in *. rewrite setslice_overflow by (assumption || lia). reflexivity.
  - simpl in *.
    destruct (Np.setslice float32 a n (n + Np.len x) x) as [e|a1] eqn:Es.
    + apply setslice_raises in Es; [subst; reflexivity|assumption].
    + simpl. destruct (setslice_shape a x n a1 Hn Es) as [_ S2].
      apply IH; [pose proof (len_nonneg x); lia|rewrite S2; lia|assumption].
Qed.

(** *** [read_activations] on a labelled reader *)

Lemma read_activations_run w ls (name : ActivationName) c0
      (rest : list (Np.ndarray V)) :
  labelled disk (self w) ls ->
  activation_files disk (activation_path (self w) name) = Some (c0 :: rest) ->
  exists w',
    read_activations uninit float32 disk name w
    = ((try a' <- fill float32 (c0 :: rest)
                    (Np.empty uninit (Z.of_nat (length ls)) (Np.ncols c0)) 0;
        ok (Some a')), w')
    /\ labelled disk (self w') ls.
Proof.
  intros Hl Hf.
  unfold read_activations.
  rewrite (bind_ok V L _ _ w (self w) w) by reflexivity.
  set (w0 := {| self := self w;
                trace := trace w
                         ++ [OpenActivations
                               (activations_dir (self w) ++ "/"
                                ++ activation_filename name)%string] |}).
  rewrite (bind_ok V L _ _ w tt w0) by reflexivity.
  unfold activation_path in Hf. rewrite Hf.
  assert (Hl0 : labelled disk (self w0) ls) by exact Hl.
  destruct (data_len_run V L disk w0 ls Hl0) as [w1 [E1 [L1 _]]].
  exists w1. split; [|assumption].
  simpl read_loop.
  rewrite (bind_ok V L _ _ w0
             (Some (Np.ncols c0),
              Some (Np.empty uninit (Z.of_nat (length ls)) (Np.ncols c0))) w1)
    by (rewrite (bind_ok V L _ _ _ _ _ E1); reflexivity).
  cbv beta iota delta [snd fst]. rewrite bind_lift. simpl fill.
  destruct (Np.setslice float32 _ 0 (Np.len c0) c0) as [e|a1]; [reflexivity|].
  simpl. apply read_loop_fill.
Qed.

Lemma empty_shape (n : Z) (h : nat) :
  0 <= n ->
  Np.ncols (Np.empty uninit n h) = h /\ Np.len (Np.empty uninit n h) = n.
Proof.
  intros Hn. split; [reflexivity|].
  unfold Np.len, Np.empty. simpl. rewrite length_map, length_seq. lia.
Qed.

End Loading.

(** ** What [read_activations] accepts and refuses *)

Section LoadingClaims.

Variables V L : Type.
Variable uninit : nat -> nat -> V.
Variable float32 : V -> V.
Variable disk : Disk V L.

Implicit Types (w : World V L) (ls : list L) (a c : Np.ndarray V).

Lemma total_rows_length (dumps : list (Np.ndarray V)) :
  Z.of_nat (length (concat (map Np.rows dumps))) = total_rows dumps.
Proof.
  induction dumps as [|c dumps IH]; simpl; [reflexivity|].
  rewrite length_app. unfold Np.len. lia.
Qed.

(** A stream of dumps of one width with at most [sequence_count] rows
    loads into a matrix of [sequence_count] rows that starts with the
    rows of the dumps. *)
Lemma read_activations_fits_run w ls (name : ActivationName) c0
      (rest : list (Np.ndarray V)) :
  labelled disk (self w) ls ->
  activation_files disk (activation_path (self w) name) = Some (c0 :: rest) ->
  same_width (Np.ncols c0) (c0 :: rest) = true ->
  total_rows (c0 :: rest) <= Z.of_nat (length ls) ->
  exists m w',
    read_activations uninit float32 disk name w = (ok (Some m), w')
    /\ labelled disk (self w') ls
    /\ Np.len m = Z.of_nat (length ls)
    /\ Np.ncols m = Np.ncols c0
    /\ between (Np.rows m) 0 (total_rows (c0 :: rest))
       = map (map float32) (concat (map Np.rows (c0 :: rest))).
Proof.
  intros Hl Hf Hw Hfit.
  destruct (read_activations_run V L uninit float32 disk w ls name c0 rest Hl Hf)
    as [w' [E Hl']].
  destruct (empty_shape V uninit (Z.of_nat (length ls)) (Np.ncols c0)
              (Zle_0_nat _)) as [Hc Hlen].
  remember (Np.empty uninit (Z.of_nat (length ls)) (Np.ncols c0)) as a0 eqn:Ea0.
  remember (c0 :: rest) as D eqn:ED.
  pose proof (total_rows_nonneg V D) as Hnn.
  pose proof (total_rows_length D) as Htl.
  rewrite fill_fits in E; [|lia|rewrite Hc; assumption|rewrite Hlen; lia].
  cbv beta iota delta [rbind] in E.
  eexists; exists w'. split; [exact E|]. split; [assumption|].
  rewrite Z.add_0_l. change (Z.to_nat 0) with 0%nat. simpl firstn. simpl app.
  split; [|split; [exact Hc|]].
  - unfold Np.len at 1. simpl Np.rows.
    rewrite !length_app, length_map, length_skipn.
    unfold Np.len in Hlen. lia.
  - simpl Np.rows. unfold between. simpl skipn.
    rewrite Z.sub_0_r.
    rewrite firstn_app.
    replace (Z.to_nat (total_rows D)
             - length (map (map float32) (concat (map Np.rows D))))%nat
      with 0%nat by (rewrite length_map; lia).
    simpl firstn. rewrite app_nil_r.
    apply firstn_all2. rewrite length_map. lia.
Qed.

(** C4 (amended).  [read_activations] compares neither the accumulated
    row count with [sequence_count] nor the column counts, and has no
    format error of its own.  A stream whose dumps all have the column
    count of the first and whose total row count is at most
    [sequence_count] -- equal or smaller -- is loaded: the matrix has
    [sequence_count] rows, of which the first [total_rows] are the rows of
    the dumps in order.  The load fails, with the [ValueError] of the array
    assignment, when a dump's column count is neither the hidden width
    nor 1, and when a dump of more than one row extends past row
    [sequence_count]. *)
Theorem read_activations_accepts_short_refuses_misfit w ls
        (name : ActivationName) (dumps : list (Np.ndarray V)) :
  labelled disk (self w) ls ->
  activation_files disk (activation_path (self w) name) = Some dumps ->
  let out := fst (read_activations uninit float32 disk name w) in
  let sequence_count := Z.of_nat (length ls) in
  (forall c0 rest,
      dumps = c0 :: rest ->
      same_width (Np.ncols c0) dumps = true ->
      total_rows dumps <= sequence_count ->
      exists m,
        out = ok (Some m)
        /\ Np.len m = sequence_count
        /\ Np.ncols m = Np.ncols c0
        /\ between (Np.rows m) 0 (total_rows dumps)
           = map (map float32) (concat (map Np.rows dumps)))
  /\ (forall c0 pre c post,
         dumps = c0 :: pre ++ c :: post ->
         Np.ncols c <> Np.ncols c0 -> Np.ncols c <> 1%nat ->
         out = raise ValueError)
  /\ (forall pre c post,
         dumps = pre ++ c :: post ->
         sequence_count < total_rows pre + Np.len c -> 1 < Np.len c ->
         out = raise ValueError).
Proof.
  intros Hl Hf out sequence_count. subst out sequence_count.
  destruct (empty_shape V uninit (Z.of_nat (length ls))) with (h := 0%nat)
    as [_ Hlen0]; [lia|].
  split; [|split].
  - intros c0 rest -> Hw Hfit.
    destruct (read_activations_fits_run w ls name c0 rest Hl Hf Hw Hfit)
      as [m [w' [E [_ [H1 [H2 H3]]]]]].
    exists m. rewrite E. repeat split; assumption.
  - intros c0 pre c post -> Hw Hone.
    destruct (read_activations_run V L uninit float32 disk w ls name c0 _ Hl Hf)
      as [w' [E _]].
    rewrite E. cbv beta iota delta [fst].
    change (c0 :: pre ++ c :: post) with ((c0 :: pre) ++ c :: post).
    rewrite fill_bad_width; [reflexivity|lia|exact Hw|exact Hone].
  - intros pre c post -> Hover Hone.
    assert (Hex : exists c0 rest, pre ++ c :: post = c0 :: rest).
    { destruct pre as [|x pre]; simpl; eauto. }
    destruct Hex as [c0 [rest Hd]].
    rewrite Hd in Hf.
    destruct (read_activations_run V L uninit float32 disk w ls name c0 rest Hl Hf)
      as [w' [E _]].
    rewrite E, <- Hd. cbv beta iota delta [fst].
    rewrite fill_overflow; [reflexivity|lia| |exact Hone].
    destruct (empty_shape V uninit (Z.of_nat (length ls)) (Np.ncols c0)
                (Zle_0_nat _)) as [_ Hlen].
    rewrite Hlen. lia.
Qed.

End LoadingClaims.

(** ** Floats and the split point *)

Lemma binary_round_aux_sign (sx : bool) (mx ex : Z) (lx : location) :
  float_signbit (binary_round_aux Py.prec Py.emax sx mx ex lx) = sx
  \/ binary_round_aux Py.prec Py.emax sx mx ex lx = S754_nan.
Proof.
  unfold binary_round_aux.
  destruct (shr_fexp Py.prec Py.emax mx ex lx) as [mrs' e'].
  destruct (shr_fexp Py.prec Py.emax _ e' loc_Exact) as [mrs'' e''].
  destruct (shr_m mrs'') as [|m|m].
  - left; reflexivity.
  - destruct (e'' <=? Py.emax - Py.prec); left; reflexivity.
  - right; reflexivity.
Qed.

Lemma float_of_int_sign (n : Z) (f : Py.float) :
  0 <= n -> Py.float_of_int n = ok f -> float_signbit f = false.
Proof.
  intros Hn. unfold Py.float_of_int, binary_normalize.
  destruct n as [|p|p]; [| |lia].
  - intros H; inversion H; reflexivity.
  - unfold binary_round.
    destruct (shl_align p 0 _) as [mz ez].
    destruct (binary_round_aux_sign false (Zpos mz) ez loc_Exact) as [Hs|Hnan].
    + destruct (binary_round_aux Py.prec Py.emax false (Zpos mz) ez loc_Exact);
        intros H; inversion H; subst; exact Hs.
    + rewrite Hnan. intros H; inversion H; reflexivity.
Qed.

Lemma float_mul_sign (x y : Py.float) :
  float_signbit x = false -> float_signbit y = false ->
  float_signbit (Py.float_mul x y) = false.
Proof.
  intros Hx Hy. unfold Py.float_mul.
  destruct x as [sx|sx| |sx mx ex], y as [sy|sy| |sy my ey];
    simpl in Hx, Hy; subst; unfold SFmul; try reflexivity.
  change (xorb false false) with false.
  destruct (binary_round_aux_sign false (Zpos (mx * my)) (ex + ey) loc_Exact)
    as [Hs|Hnan]; [exact Hs|].
  rewrite Hnan. reflexivity.
Qed.

(** On a finite float that is not negative, [int] is the floor. *)
Lemma int_of_float_floor (x : Py.float) :
  float_signbit x = false -> float_is_finite x = true ->
  exists z, Py.int_of_float x = ok z /\ float_floor x = Some z /\ 0 <= z.
Proof.
  intros Hs Hf. destruct x as [s|s| |s m e]; simpl in *; try discriminate.
  - exists 0. repeat split; lia.
  - subst s. destruct e as [|p|p].
    + exists (Zpos m). split; [reflexivity|]. split; [|lia].
      change (0 <? 0) with false. cbv iota.
      rewrite Z.pow_0_r, Z.mul_1_r. reflexivity.
    + exists (Z.shiftl (Zpos m) (Zpos p)). split; [reflexivity|].
      rewrite Z.shiftl_mul_pow2 by lia.
      change (Zpos p <? 0) with false. cbv iota.
      split; [reflexivity|]. apply Z.mul_nonneg_nonneg; [lia|].
      apply Z.pow_nonneg. lia.
    + exists (Z.shiftr (Zpos m) (Zpos p)). split; [reflexivity|].
      rewrite Z.shiftr_div_pow2 by lia.
      change (Zneg p <? 0) with true. cbv iota. simpl Z.opp.
      split; [reflexivity|]. apply Z.div_pos; [lia|].
      apply Z.pow_pos_nonneg; lia.
Qed.

(** ** Prefix and suffix slices *)

Lemma rmap_ext_in {A B} (f g : A -> result B) (l : list A) :
  (forall x, In x l -> f x = g x) -> rmap f l = rmap g l.
Proof.
  induction l as [|x l IH]; simpl; intros H; [reflexivity|].
  rewrite (H x) by (left; reflexivity).
  rewrite IH by (intros; apply H; right; assumption).
  reflexivity.
Qed.

Lemma range3_unit (lo hi : Z) : Py.range3 lo hi 1 = Py.range lo hi.
Proof.
  unfold Py.range3, Py.range. rewrite range_len_unit.
  apply map_ext. intros i. lia.
Qed.

Lemma getslice_unit {A} (l : list A) (lo hi : Z) :
  0 <= lo -> lo <= hi -> hi <= Z.of_nat (length l) ->
  rmap (fun i => match nth_error l (Z.to_nat i) with
                 | Some x => ok x
                 | None => raise IndexError
                 end) (Py.range3 lo hi 1)
  = ok (between l lo hi).
Proof.
  intros Hlo Hle Hhi. rewrite range3_unit.
  rewrite <- (take_range l lo hi) by assumption.
  unfold Np.take. apply rmap_ext_in. intros i Hi. apply range_In in Hi.
  unfold Np.norm_index.
  replace ((- Z.of_nat (length l) <=? i) && (i <? Z.of_nat (length l)))
    with true by (symmetry; apply andb_true_iff; split; lia).
  replace (i <? 0) with false by (symmetry; apply Z.ltb_ge; lia).
  reflexivity.
Qed.

(** [l[:k]] for [k >= 0] *)
Lemma getslice_prefix {A} (l : list A) (k : Z) :
  0 <= k ->
  Py.getslice l (Py.Slice None (Some k) None) = ok (firstn (Z.to_nat k) l).
Proof.
  intros Hk. unfold Py.getslice, Py.slice_indices. simpl.
  replace (k <? 0) with false by (symmetry; apply Z.ltb_ge; lia).
  rewrite getslice_unit by lia. f_equal.
  unfold between. simpl skipn. rewrite Z.sub_0_r.
  destruct (Z.le_ge_cases k (Z.of_nat (length l))).
  - rewrite Z.min_l by lia. reflexivity.
  - rewrite Z.min_r by lia. rewrite !firstn_all2 by lia. reflexivity.
Qed.

(** [l[k:]] for [k >= 0] *)
Lemma getslice_suffix {A} (l : list A) (k : Z) :
  0 <= k ->
  Py.getslice l (Py.Slice (Some k) None None) = ok (skipn (Z.to_nat k) l).
Proof.
  intros Hk. unfold Py.getslice, Py.slice_indices. simpl.
  replace (k <? 0) with false by (symmetry; apply Z.ltb_ge; lia).
  rewrite getslice_unit by lia. f_equal.
  unfold between.
  destruct (Z.le_ge_cases k (Z.of_nat (length l))).
  - rewrite Z.min_l by lia. apply firstn_all2. rewrite length_skipn. lia.
  - rewrite Z.min_r by lia. rewrite !skipn_all2 by lia. apply firstn_nil.
Qed.

Lemma take_in_bounds {A} (l : list A) (inds : list Z) :
  (forall i, In i inds -> 0 <= i < Z.of_nat (length l)) ->
  exists r, Np.take l inds = ok r /\ length r = length inds.
Proof.
  induction inds as [|i inds IH]; intros Hb.
  - exists []. split; reflexivity.
  - destruct IH as [r [Hr Hlen]]; [intros; apply Hb; right; assumption|].
    pose proof (Hb i (or_introl eq_refl)) as Hi.
    destruct (nth_error l (Z.to_nat i)) as [x|] eqn:Ex.
    + exists (x :: r). split; [|simpl; congruence].
      change (i :: inds) with ([i] ++ inds).
      rewrite take_app, (take_one l i x Hi Ex), Hr. reflexivity.
    + apply nth_error_None in Ex. lia.
Qed.

Lemma int_times_float_sign (n : Z) (x prod : Py.float) :
  0 <= n -> float_signbit x = false ->
  Py.int_times_float n x = ok prod -> float_signbit prod = false.
Proof.
  intros Hn Hx. unfold Py.int_times_float.
  destruct (Py.float_of_int n) as [e|f] eqn:Ef; simpl; [discriminate|].
  intros H; inversion H; subst.
  apply float_mul_sign; [|assumption].
  eapply float_of_int_sign; eassumption.
Qed.

(** The split point is the floor of the float product, and the drawn
    indices are cut there. *)
Lemma split_indices_run (s : Z) (ratio prod : Py.float) (idx : list Z) :
  0 <= s -> float_signbit ratio = false ->
  Py.int_times_float s ratio = ok prod ->
  float_is_finite prod = true ->
  idx <> [] ->
  exists split,
    split_indices s ratio (Np.asarray idx)
    = ok (split,
          Np.IndexArray Np.int64 (firstn (Z.to_nat split) idx),
          Np.IndexArray Np.int64 (skipn (Z.to_nat split) idx))
    /\ float_floor prod = Some split
    /\ 0 <= split.
Proof.
  intros Hs Hr Hp Hf Hne.
  pose proof (int_times_float_sign s ratio prod Hs Hr Hp) as Hsign.
  destruct (int_of_float_floor prod Hsign Hf) as [split [Hi [Hfl Hnn]]].
  exists split. split; [|split; assumption].
  unfold split_indices. rewrite Hp. simpl rbind. rewrite Hi. simpl rbind.
  simpl Np.elems.
  rewrite getslice_prefix, getslice_suffix by assumption. simpl rbind.
  destruct idx; [contradiction|reflexivity].
Qed.

Lemma NoDup_app_disjoint {A} (l1 l2 : list A) :
  NoDup (l1 ++ l2) -> forall x, In x l1 -> ~ In x l2.
Proof.
  induction l1 as [|y l1 IH]; simpl; intros Hnd x Hin; [contradiction|].
  inversion Hnd as [|? ? Hnotin Hnd']; subst.
  destruct Hin as [->|Hin].
  - intros H2. apply Hnotin. apply in_or_app. right. assumption.
  - apply IH; assumption.
Qed.

(** ** [create_data_split] *)

Section Split.

Variables V L : Type.
Variable uninit : nat -> nat -> V.
Variable float32 : V -> V.
Variable disk : Disk V L.

Implicit Types (w : World V L) (ls : list L) (a c : Np.ndarray V).

Lemma getitem_array_in_bounds a (inds : list Z) :
  (forall i, In i inds -> 0 <= i < Np.len a) ->
  exists r,
    Np.getitem_array a (Np.IndexArray Np.int64 inds) = ok r
    /\ Np.take (Np.rows a) inds = ok (Np.rows r)
    /\ Np.len r = Z.of_nat (length inds).
Proof.
  intros Hb. destruct (take_in_bounds (Np.rows a) inds Hb) as [rs [Hr Hlen]].
  exists (Np.NdArray (Np.ncols a) rs).
  unfold Np.getitem_array, Np.take_array. simpl. rewrite Hr.
  repeat split. unfold Np.len. simpl. congruence.
Qed.

(** C5.  On a reader with labels whose activation file loads, for a subset
    size [size] that is [-1] or satisfies [0 < size <= sequence_count], a
    drawn permutation [choice s] of [range(s)], where [s] is the subset
    size or [sequence_count] when it is [-1], and a split ratio that is not
    negative and whose product with [s] is finite: [create_data_split]
    returns; the split point is the floor of the float product
    [s * ratio]; the train indices are the draws before the split point and
    the test indices those from it on; no index is in both; and
    [len(train_x) + len(test_x) = s]. *)
Theorem create_data_split_partitions w ls (name : ActivationName) (size : Z)
        (ratio prod : Py.float) (choice : Z -> list Z) c0
        (rest : list (Np.ndarray V)) :
  labelled disk (self w) ls ->
  activation_files disk (activation_path (self w) name) = Some (c0 :: rest) ->
  same_width (Np.ncols c0) (c0 :: rest) = true ->
  total_rows (c0 :: rest) <= Z.of_nat (length ls) ->
  size = -1 \/ 0 < size <= Z.of_nat (length ls) ->
  let s := if size =? -1 then Z.of_nat (length ls) else size in
  0 < s ->
  Permutation (choice s) (Py.range 0 s) ->
  float_signbit ratio = false ->
  Py.int_times_float s ratio = ok prod ->
  float_is_finite prod = true ->
  exists m dd split train test,
    fst (create_data_split uninit float32 disk name size ratio choice w) = ok dd
    /\ split_indices s ratio (Np.asarray (choice s)) = ok (split, train, test)
    /\ float_floor prod = Some split
    /\ Np.elems train = firstn (Z.to_nat split) (choice s)
    /\ Np.elems test = skipn (Z.to_nat split) (choice s)
    /\ (forall i, In i (Np.elems train) -> ~ In i (Np.elems test))
    /\ Np.take (Np.rows m) (Np.elems train) = ok (Np.rows (train_x dd))
    /\ Np.take (Np.rows m) (Np.elems test) = ok (Np.rows (test_x dd))
    /\ Np.take ls (Np.elems train) = ok (train_y dd)
    /\ Np.take ls (Np.elems test) = ok (test_y dd)
    /\ Np.len (train_x dd) + Np.len (test_x dd) = s.
Proof.
  intros Hl Hf Hw Hfit Hsize s Hs Hperm Hratio Hprod Hfin.
  (* validation *)
  assert (Hval : exists w1,
             (if negb (size =? -1)
              then (if 0 <? size
                    then bind (data_len disk)
                              (fun dl => assert V L (size <=? dl))
                    else assert V L false)
              else ret tt) w = (ok tt, w1)
             /\ labelled disk (self w1) ls
             /\ activations_dir (self w1) = activations_dir (self w)).
  { destruct (Z.eqb_spec size (-1)) as [Heq|Hneq]; cbv beta iota delta [negb].
    - exists w. split; [reflexivity|]. split; [assumption|reflexivity].
    - destruct (data_len_run V L disk w ls Hl) as [w1 [E1 [L1 T1]]].
      exists w1.
      replace (0 <? size) with true by (symmetry; apply Z.ltb_lt; lia).
      rewrite (bind_ok V L _ _ _ _ _ E1).
      replace (size <=? Z.of_nat (length ls)) with true
        by (symmetry; apply Z.leb_le; lia).
      split; [reflexivity|]. split; [assumption|apply T1]. }
  destruct Hval as [w1 [E1 [L1 D1]]].
  (* loading *)
  assert (Hf1 : activation_files disk (activation_path (self w1) name)
                = Some (c0 :: rest))
    by (unfold activation_path in *; rewrite D1; exact Hf).
  destruct (read_activations_fits_run V L uninit float32 disk w1 ls name c0 rest
              L1 Hf1 Hw Hfit) as [m [w2 [E2 [L2 [Hlen _]]]]].
  (* data size *)
  assert (Hds : exists w3,
             (if size =? -1 then data_len disk else ret size) w2 = (ok s, w3)
             /\ labelled disk (self w3) ls).
  { subst s. destruct (size =? -1).
    - destruct (data_len_run V L disk w2 ls L2) as [w3 [E3 [L3 _]]].
      exists w3. split; assumption.
    - exists w2. split; [reflexivity|assumption]. }
  destruct Hds as [w3 [E3 L3]].
  (* split indices *)
  assert (Hne : choice s <> []).
  { intros Hnil. rewrite Hnil in Hperm. apply Permutation_nil in Hperm.
    apply range_nil in Hperm. lia. }
  destruct (split_indices_run s ratio prod (choice s) ltac:(lia) Hratio Hprod
              Hfin Hne) as [split [Esp [Hfloor Hnn]]].
  set (train := Np.IndexArray Np.int64 (firstn (Z.to_nat split) (choice s))) in *.
  set (test := Np.IndexArray Np.int64 (skipn (Z.to_nat split) (choice s))) in *.
  (* the drawn indices are rows of the matrix and of the labels *)
  assert (Hsle : s <= Z.of_nat (length ls)) by (subst s; destruct (size =? -1); lia).
  assert (Hin : forall i, In i (choice s) -> 0 <= i < s).
  { intros i Hi. apply range_In. eapply Permutation_in; eassumption. }
  assert (Hnd : NoDup (choice s)).
  { eapply Permutation_NoDup; [apply Permutation_sym; eassumption|].
    apply range_NoDup. }
  assert (Htr : forall i, In i (Np.elems train) -> 0 <= i < s).
  { intros i Hi. apply Hin. simpl in Hi.
    rewrite <- (firstn_skipn (Z.to_nat split) (choice s)).
    apply in_or_app. left. assumption. }
  assert (Hte : forall i, In i (Np.elems test) -> 0 <= i < s).
  { intros i Hi. apply Hin. simpl in Hi.
    rewrite <- (firstn_skipn (Z.to_nat split) (choice s)).
    apply in_or_app. right. assumption. }
  destruct (getitem_array_in_bounds m (Np.elems train)) as [trx [Gx1 [Tx1 Lx1]]];
    [intros i Hi; specialize (Htr i Hi); lia|].
  destruct (getitem_array_in_bounds m (Np.elems test)) as [tex [Gx2 [Tx2 Lx2]]];
    [intros i Hi; specialize (Hte i Hi); lia|].
  destruct (take_in_bounds ls (Np.elems train)) as [try_ [Ty1 _]];
    [intros i Hi; specialize (Htr i Hi); lia|].
  destruct (take_in_bounds ls (Np.elems test)) as [tey [Ty2 _]];
    [intros i Hi; specialize (Hte i Hi); lia|].
  destruct (labels_run V L disk w3 ls L3) as [w4 [E4 [L4 _]]].
  destruct (labels_run V L disk w4 ls L4) as [w5 [E5 _]].
  exists m, {| train_x := trx; train_y := try_; test_x := tex; test_y := tey |},
    split, train, test.
  split.
  { unfold create_data_split.
    change (Np.IndexArray Np.int64 (Np.elems train)) with train in Gx1.
    change (Np.IndexArray Np.int64 (Np.elems test)) with test in Gx2.
    change (Np.take ls (Np.elems train)) with (Np.take_array ls train) in Ty1.
    change (Np.take ls (Np.elems test)) with (Np.take_array ls test) in Ty2.
    rewrite (bind_ok V L _ _ _ _ _ E1).
    rewrite (bind_ok V L _ _ _ _ _ E2).
    rewrite (bind_ok V L _ _ _ _ _ E3).
    rewrite (bind_ok V L _ _ w3 _ w3
               (f_equal (fun r => (r, w3)) Esp : lift _ w3 = _)).
    cbv beta iota zeta.
    change (snd (fst (split, train, test))) with train.
    change (snd (split, train, test)) with test.
    rewrite (bind_ok V L _ _ w3 _ w3
               (f_equal (fun r => (r, w3)) Gx1 : lift _ w3 = _)).
    rewrite (bind_ok V L _ _ _ _ _ E4).
    rewrite (bind_ok V L _ _ w4 _ w4
               (f_equal (fun r => (r, w4)) Ty1 : lift _ w4 = _)).
    rewrite (bind_ok V L _ _ w4 _ w4
               (f_equal (fun r => (r, w4)) Gx2 : lift _ w4 = _)).
    rewrite (bind_ok V L _ _ _ _ _ E5).
    rewrite (bind_ok V L _ _ w5 _ w5
               (f_equal (fun r => (r, w5)) Ty2 : lift _ w5 = _)).
    reflexivity. }
  split; [exact Esp|]. split; [exact Hfloor|].
  split; [reflexivity|]. split; [reflexivity|].
  split.
  { intros i Hi1 Hi2. simpl in Hi1, Hi2.
    rewrite <- (firstn_skipn (Z.to_nat split) (choice s)) in Hnd.
    exact (NoDup_app_disjoint _ _ Hnd i Hi1 Hi2). }
  split; [exact Tx1|]. split; [exact Tx2|].
  split; [exact Ty1|]. split; [exact Ty2|].
  simpl train_x. simpl test_x. rewrite Lx1, Lx2. simpl Np.elems.
  rewrite <- Nat2Z.inj_add, <- length_app, firstn_skipn.
  rewrite (Permutation_length Hperm), range_length. lia.
Qed.

End Split.

(** ** The claims on the example extraction *)

Lemma ex_world_serves : serves ex_disk (self ex_world) ex_ranges ex_matrix.
Proof. split; reflexivity. Defined.

Lemma ex_world_labelled : labelled ex_disk (self ex_world) ex_labels.
Proof. split; [reflexivity|right; reflexivity]. Defined.

Lemma ex_ranges_wf : dict_wf ex_ranges.
Proof.
  unfold dict_wf, keys, ex_ranges. simpl.
  repeat constructor; simpl; intuition discriminate.
Defined.


Lemma getitem_pos_eq_key_witness :
  serves ex_disk (self ex_world) ex_ranges ex_matrix
  /\ dict_wf ex_ranges
  /\ 0 <= 2 < Z.of_nat (length ex_ranges)
  /\ nth_error (keys ex_ranges) (Z.to_nat 2) = Some 5
  /\ fst (getitem ex_uninit ex_float32 ex_disk (KIndex (IInt 2)) ex_world)
     = fst (getitem ex_uninit ex_float32 ex_disk (KTuple (IInt 5) [AStr "key"]) ex_world).
Proof.
  split; [exact ex_world_serves|].
  split; [exact ex_ranges_wf|].
  split; [simpl; lia|].
  split; [reflexivity|].
  apply (getitem_pos_eq_key Z Z ex_uninit ex_float32 ex_disk
           ex_world ex_ranges ex_matrix 2 5).
  - exact ex_world_serves.
  - exact ex_ranges_wf.
  - simpl; lia.
  - reflexivity.
Defined.


(** C4, counterexample.  The file of [(1, 'cx')] holds 5 rows while there
    are 8 labels; it is loaded without error, the last three rows of the
    matrix being left as allocated. *)
Lemma short_stream_is_loaded :
  activation_files ex_disk (activation_path (self ex_world) (1, "cx"))
  = Some (firstn 2 ex_dumps)
  /\ total_rows (firstn 2 ex_dumps) = 5
  /\ Z.of_nat (length ex_labels) = 8
  /\ fst (read_activations ex_uninit ex_float32 ex_disk (1, "cx") ex_world)
     = ok (Some (Np.NdArray 1%nat
                   [[100]; [101]; [102]; [103]; [104]; [-1]; [-1]; [-1]])).
Proof. repeat split. Qed.

Lemma read_activations_accepts_short_refuses_misfit_witness :
  labelled ex_disk (self ex_world) ex_labels
  /\ activation_files ex_disk (activation_path (self ex_world) (1, "cx"))
     = Some (firstn 2 ex_dumps)
  /\ exists m,
      fst (read_activations ex_uninit ex_float32 ex_disk (1, "cx") ex_world)
      = ok (Some m)
      /\ Np.len m = Z.of_nat (length ex_labels)
      /\ Np.ncols m = 1%nat
      /\ between (Np.rows m) 0 (total_rows (firstn 2 ex_dumps))
         = map (map ex_float32) (concat (map Np.rows (firstn 2 ex_dumps))).
Proof.
  split; [exact ex_world_labelled|]. split; [reflexivity|].
  destruct (read_activations_accepts_short_refuses_misfit Z Z ex_uninit ex_float32
              ex_disk ex_world ex_labels (1, "cx") (firstn 2 ex_dumps)
              ex_world_labelled eq_refl) as [Hshort _].
  apply (Hshort (Np.NdArray 1%nat [[100]; [101]; [102]])
                [Np.NdArray 1%nat [[103]; [104]]]).
  - reflexivity.
  - reflexivity.
  - simpl. unfold Np.len. simpl. lia.
Defined.

(** A draw of five indices. *)
Lemma ex_choice_permutation : Permutation [3; 1; 4; 0; 2] (Py.range 0 5).
Proof.
  apply NoDup_Permutation.
  - repeat constructor; simpl; intuition discriminate.
  - apply range_NoDup.
  - intros x. simpl. tauto.
Defined.

Lemma create_data_split_partitions_witness :
  labelled ex_disk (self ex_world) ex_labels
  /\ activation_files ex_disk (activation_path (self ex_world) (1, "hx"))
     = Some ex_dumps
  /\ same_width 1%nat ex_dumps = true
  /\ total_rows ex_dumps <= Z.of_nat (length ex_labels)
  /\ 0 < 5 <= Z.of_nat (length ex_labels)
  /\ Permutation [3; 1; 4; 0; 2] (Py.range 0 5)
  /\ float_signbit float_0_7 = false
  /\ Py.int_times_float 5 float_0_7 = ok (S754_finite false 7881299347898368 (-51))
  /\ float_is_finite (S754_finite false 7881299347898368 (-51)) = true
  /\ exists m dd split train test,
      fst (create_data_split ex_uninit ex_float32 ex_disk (1, "hx") 5 float_0_7
             (fun _ => [3; 1; 4; 0; 2]) ex_world) = ok dd
      /\ split_indices 5 float_0_7 (Np.asarray [3; 1; 4; 0; 2])
         = ok (split, train, test)
      /\ float_floor (S754_finite false 7881299347898368 (-51)) = Some split
      /\ Np.elems train = firstn (Z.to_nat split) [3; 1; 4; 0; 2]
      /\ Np.elems test = skipn (Z.to_nat split) [3; 1; 4; 0; 2]
      /\ (forall i, In i (Np.elems train) -> ~ In i (Np.elems test))
      /\ Np.take (Np.rows m) (Np.elems train) = ok (Np.rows (train_x dd))
      /\ Np.take (Np.rows m) (Np.elems test) = ok (Np.rows (test_x dd))
      /\ Np.take ex_labels (Np.elems train) = ok (train_y dd)
      /\ Np.take ex_labels (Np.elems test) = ok (test_y dd)
      /\ Np.len (train_x dd) + Np.len (test_x dd) = 5.
Proof.
  split; [exact ex_world_labelled|]. split; [reflexivity|].
  split; [reflexivity|]. split; [vm_compute; discriminate|].
  split; [simpl; lia|]. split; [exact ex_choice_permutation|].
  split; [reflexivity|]. split; [vm_compute; reflexivity|].
  split; [reflexivity|].
  apply (create_data_split_partitions Z Z ex_uninit ex_float32 ex_disk
           ex_world ex_labels (1, "hx") 5 float_0_7
           (S754_finite false 7881299347898368 (-51))
           (fun _ => [3; 1; 4; 0; 2])
           (Np.NdArray 1%nat [[100]; [101]; [102]])
           [Np.NdArray 1%nat [[103]; [104]];
            Np.NdArray 1%nat [[105]; [106]; [107]]]).
  - exact ex_world_labelled.
  - reflexivity.
  - reflexivity.
  - vm_compute; discriminate.
  - right. simpl; lia.
  - simpl; lia.
  - exact ex_choice_permutation.
  - reflexivity.
  - vm_compute; reflexivity.
  - reflexivity.
Defined.




Lemma getitem_key_pair_concat_witness :
  serves ex_disk (self ex_world) ex_ranges ex_matrix
  /\ dict_get ex_ranges 0 = ok (0, 3)
  /\ dict_get ex_ranges 5 = ok (5, 8)
  /\ fst (getitem ex_uninit ex_float32 ex_disk (KTuple (IList [0; 5]) [AStr "key"])
            ex_world)
     = (try x <- fst (getitem ex_uninit ex_float32 ex_disk
                        (KTuple (IInt 0) [AStr "key"]) ex_world);
        try y <- fst (getitem ex_uninit ex_float32 ex_disk
                        (KTuple (IInt 5) [AStr "key"])
                        (snd (getitem ex_uninit ex_float32 ex_disk
                                (KTuple (IInt 0) [AStr "key"]) ex_world)));
        ok (concatenate_rows x y)).
Proof.
  split; [exact ex_world_serves|]. split; [reflexivity|]. split; [reflexivity|].
  exact (getitem_key_pair_concat Z Z ex_uninit ex_float32 ex_disk
           ex_world ex_ranges ex_matrix 0 5 (0, 3) (5, 8)
           ex_world_serves eq_refl eq_refl).
Defined.

Lemma invalid_subset_size_fails_before_loading_witness :
  labelled ex_disk (self ex_world) ex_labels
  /\ 9 <> -1
  /\ ~ (0 < 9 <= Z.of_nat (length ex_labels))
  /\ fst (create_data_split ex_uninit ex_float32 ex_disk (1, "hx") 9 float_0_9
            (fun n => Py.range 0 n) ex_world) = raise AssertionError
  /\ no_activation_read
       (trace ex_world)
       (trace (snd (create_data_split ex_uninit ex_float32 ex_disk (1, "hx") 9
                      float_0_9 (fun n => Py.range 0 n) ex_world)))
  /\ _activations
       (self (snd (create_data_split ex_uninit ex_float32 ex_disk (1, "hx") 9
                     float_0_9 (fun n => Py.range 0 n) ex_world)))
     = _activations (self ex_world).
Proof.
  split; [exact ex_world_labelled|]. split; [lia|].
  split; [simpl; lia|].
  destruct (invalid_subset_size_fails_before_loading Z Z ex_uninit ex_float32
              ex_disk ex_world ex_labels (1, "hx") 9 float_0_9
              (fun n => Py.range 0 n)
              ex_world_labelled ltac:(lia) ltac:(simpl; lia))
    as [Hfail [Htrace [Hcache _]]].
  split; [exact Hfail|]. split; [exact Htrace|exact Hcache].
Defined.

Lemma clear_then_reselect_stays_none_witness :
  activation_name (self ex_world) = Some (1, "hx")
  /\ _activations (self ex_world) = Some ex_matrix
  /\ fst (activations_setter ex_uninit ex_float32 ex_disk (Some (1, "hx"))
            (snd (activations_setter ex_uninit ex_float32 ex_disk None ex_world)))
     = ok tt
  /\ _activations
       (self (snd (activations_setter ex_uninit ex_float32 ex_disk (Some (1, "hx"))
                     (snd (activations_setter ex_uninit ex_float32 ex_disk None
                             ex_world)))))
     = None.
Proof.
  split; [reflexivity|]. split; [reflexivity|].
  destruct (clear_then_reselect_stays_none Z Z ex_uninit ex_float32 ex_disk
              ex_world (1, "hx") eq_refl) as [Hok [_ [Hnone _]]].
  split; [exact Hok|exact Hnone].
Defined.

Lemma key_slice_stop_zero_as_absent_witness :
  serves ex_disk (self ex_world) ex_ranges ex_matrix
  /\ ex_ranges <> []
  /\ fst (getitem ex_uninit ex_float32 ex_disk
            (KTuple (ISlice (Py.Slice (Some 1) (Some 0) None)) [AStr "key"]) ex_world)
     = gather ex_matrix [(3, 5); (5, 8)]
  /\ gather ex_matrix [(3, 5); (5, 8)]
     = ok (Np.NdArray 1%nat [[103]; [104]; [105]; [106]; [107]]).
Proof.
  split; [exact ex_world_serves|]. split; [discriminate|].
  destruct (key_slice_stop_zero_as_absent Z Z ex_uninit ex_float32 ex_disk
              ex_world (Some 1) None) as [_ Hsel].
  split; [|reflexivity].
  exact (Hsel ex_ranges ex_matrix ex_world_serves ltac:(discriminate)
              (or_introl eq_refl)).
Defined.

(** * Further properties of the reader *)

(** ** Slices with explicit bounds *)

(** [l[lo:hi]] for [0 <= lo <= hi]: the bounds are clamped to the list. *)
Lemma getslice_between {A} (l : list A) (lo hi : Z) :
  0 <= lo -> lo <= hi ->
  Py.getslice l (Py.Slice (Some lo) (Some hi) None) = ok (between l lo hi).
Proof.
  intros Hlo Hle. unfold Py.getslice.
  rewrite slice_indices_nonneg by lia. simpl rbind.
  rewrite getslice_unit by lia. f_equal. unfold between.
  destruct (Z.le_ge_cases lo (Z.of_nat (length l))) as [Hin|Hout].
  - rewrite (Z.min_l lo) by lia.
    destruct (Z.le_ge_cases hi (Z.of_nat (length l))).
    + rewrite Z.min_l by lia. reflexivity.
    + rewrite Z.min_r by lia.
      rewrite !firstn_all2 by (rewrite length_skipn; lia). reflexivity.
  - rewrite !Z.min_r by lia.
    rewrite !skipn_all2 by lia. rewrite !firstn_nil. reflexivity.
Qed.

(** [l[:]] *)
Lemma getslice_full {A} (l : list A) :
  Py.getslice l (Py.Slice None None None) = ok l.
Proof.
  unfold Py.getslice, Py.slice_indices. simpl.
  rewrite getslice_unit by lia. f_equal. apply between_all.
Qed.

Lemma dict_get_absent (d : ActivationRanges) (k : Z) :
  ~ In k (keys d) -> dict_get d k = raise KeyError.
Proof.
  induction d as [|[k' r] d IH]; simpl; intros Hn; [reflexivity|].
  destruct (Z.eqb_spec k' k) as [->|Hne].
  - exfalso. apply Hn. left. reflexivity.
  - apply IH. intros Hin. apply Hn. right. assumption.
Qed.

Lemma dict_get_raises (d : ActivationRanges) (k : Z) (e : exn) :
  dict_get d k = raise e -> e = KeyError.
Proof.
  induction d as [|[k' r] d IH]; simpl; intros H.
  - inversion H; reflexivity.
  - destruct (k' =? k); [discriminate|]. apply IH; assumption.
Qed.

Lemma rmap_ok_each {A B} (f : A -> result B) (l : list A) (r : list B) :
  rmap f l = ok r -> forall x, In x l -> exists y, f x = ok y.
Proof.
  revert r; induction l as [|a l IH]; simpl; intros r H x Hin; [contradiction|].
  destruct (f a) as [e|b] eqn:Ea; simpl in H; [discriminate|].
  destruct (rmap f l) as [e|bs] eqn:El; simpl in H; [discriminate|].
  destruct Hin as [<-|Hin]; [exists b; assumption|].
  eapply IH; [reflexivity|assumption].
Qed.

Lemma take_one_negative {A} (l : list A) (i : Z) :
  - Z.of_nat (length l) <= i < 0 ->
  Np.take l [i] = Np.take l [i + Z.of_nat (length l)].
Proof.
  intros Hi. unfold Np.take. simpl. unfold Np.norm_index.
  replace ((- Z.of_nat (length l) <=? i) && (i <? Z.of_nat (length l)))
    with true by (symmetry; apply andb_true_iff; split; lia).
  replace ((- Z.of_nat (length l) <=? i + Z.of_nat (length l))
           && (i + Z.of_nat (length l) <? Z.of_nat (length l)))
    with true by (symmetry; apply andb_true_iff; split; lia).
  replace (i <? 0) with true by (symmetry; apply Z.ltb_lt; lia).
  replace (i + Z.of_nat (length l) <? 0) with false
    by (symmetry; apply Z.ltb_ge; lia).
  reflexivity.
Qed.

Lemma take_one_out_of_range {A} (l : list A) (i : Z) :
  i < - Z.of_nat (length l) \/ Z.of_nat (length l) <= i ->
  Np.take l [i] = raise IndexError.
Proof.
  intros Hi. unfold Np.take. simpl. unfold Np.norm_index.
  replace ((- Z.of_nat (length l) <=? i) && (i <? Z.of_nat (length l)))
    with false; [reflexivity|].
  symmetry. apply andb_false_iff.
  destruct Hi; [left; apply Z.leb_gt|right; apply Z.ltb_ge]; lia.
Qed.

Section Selectors.

Variables V L : Type.
Variable uninit : nat -> nat -> V.
Variable float32 : V -> V.
Variable disk : Disk V L.

Implicit Types (w : World V L) (d : ActivationRanges) (a : Np.ndarray V).

(** X1.  Raw-row indexing with a slice [lo:hi], [0 <= lo <= hi], returns the
    rows [lo .. hi-1] of the matrix that exist (a bound past the last row is
    clamped, nothing is raised) and leaves the reader as it was: the
    RangeTable is neither consulted nor loaded. *)
Theorem getitem_all_slice_rows w a (lo hi : Z) :
  _activations (self w) = Some a ->
  0 <= lo -> lo <= hi ->
  getitem uninit float32 disk
    (KTuple (ISlice (Py.Slice (Some lo) (Some hi) None)) [AStr "all"]) w
  = (ok (Np.NdArray (Np.ncols a) (between (Np.rows a) lo hi)), w).
Proof.
  intros Ha Hlo Hle. unfold getitem.
  rewrite (bind_ok V L _ _ w
             (ISlice (Py.Slice (Some lo) (Some hi) None), "all") w)
    by reflexivity.
  rewrite (bind_ok V L _ _ w _ w (activations_run V L w)).
  rewrite Ha. cbv beta iota.
  change (String.eqb "all" "all") with true. cbv iota.
  rewrite bind_lift. unfold index_axis0.
  rewrite getslice_between by assumption. reflexivity.
Qed.

(** X2.  In key mode a selector that names a key absent from the RangeTable
    fails with [KeyError], whatever the other keys of the selector. *)
Theorem getitem_key_absent w d a (l : list Z) (k : Z) :
  serves disk (self w) d a ->
  In k l -> ~ In k (keys d) ->
  fst (getitem uninit float32 disk (KTuple (IList l) [AStr "key"]) w)
  = raise KeyError.
Proof.
  intros Hs Hin Habs.
  destruct (getitem_key_list_run V L uninit float32 disk w d a l Hs)
    as [w' [E _]].
  rewrite E. simpl fst.
  destruct (rmap (dict_get d) l) as [e|rs] eqn:Er.
  - simpl. unfold raise. f_equal. eapply rmap_raises; [|exact Er].
    intros x e'. apply dict_get_raises.
  - destruct (rmap_ok_each _ _ _ Er k Hin) as [y Hy].
    rewrite dict_get_absent in Hy by assumption. discriminate.
Qed.

Lemma bind_assoc {A B C} (m : M V L A) (k : A -> M V L B) (h : B -> M V L C) w :
  bind (bind m k) h w = bind m (fun x => bind (k x) h) w.
Proof. unfold bind. destruct (m w) as [[e|x] w']; reflexivity. Qed.

Lemma bind_ext {A B} (m : M V L A) (k k' : A -> M V L B) w :
  (forall x w', k x w' = k' x w') -> bind m k w = bind m k' w.
Proof.
  intros H. unfold bind. destruct (m w) as [[e|x] w']; [reflexivity|apply H].
Qed.

(** X3.  An activation name as first further component of a key selects
    that activation and then indexes with the rest of the key:
    [reader[index, a_name, ...]] is [reader.activations = a_name] followed
    by [reader[index, ...]]. *)
Theorem getitem_with_name_is_select_then_index w (index : ActivationIndex)
        (name : ActivationName) (args : list KeyArg) :
  getitem uninit float32 disk (KTuple index (AName name :: args)) w
  = bind (activations_setter uninit float32 disk (Some name))
         (fun _ => getitem uninit float32 disk (KTuple index args)) w.
Proof.
  unfold getitem, _parse_key.
  change (parse_args uninit float32 disk (AName name :: args) "pos")
    with (bind (activations_setter uninit float32 disk (Some name))
               (fun _ => parse_args uninit float32 disk args "pos")).
  generalize (activations_setter uninit float32 disk (Some name)) as select.
  intros select. unfold bind.
  destruct (select w) as [[e|[]] w']; reflexivity.
Qed.

(** X4.  A negative position counts from the last extracted sequence:
    for [-n <= i < 0], with [n] the number of entries of the RangeTable,
    [reader[i]] is [reader[i + n]]. *)
Theorem getitem_pos_negative w d a (i : Z) :
  serves disk (self w) d a ->
  - Z.of_nat (length d) <= i < 0 ->
  fst (getitem uninit float32 disk (KIndex (IInt i)) w)
  = fst (getitem uninit float32 disk (KIndex (IInt (i + Z.of_nat (length d)))) w).
Proof.
  intros Hs Hi.
  destruct (getitem_pos_run V L uninit float32 disk w d a (IInt i) Hs)
    as [w1 [E1 _]].
  destruct (getitem_pos_run V L uninit float32 disk w d a
              (IInt (i + Z.of_nat (length d))) Hs) as [w2 [E2 _]].
  rewrite E1, E2. cbv beta iota delta [fst wrap_int index_axis0].
  rewrite take_one_negative
    by (unfold values; rewrite length_map; assumption).
  unfold values. rewrite length_map. reflexivity.
Qed.

(** X5.  A position that fits a signed 64-bit integer and lies outside
    [-n, n), with [n] the number of entries of the RangeTable, fails with
    [IndexError]. *)
Theorem getitem_pos_out_of_range w d a (i : Z) :
  serves disk (self w) d a ->
  - 2 ^ 63 <= i < 2 ^ 63 ->
  i < - Z.of_nat (length d) \/ Z.of_nat (length d) <= i ->
  fst (getitem uninit float32 disk (KIndex (IInt i)) w) = raise IndexError.
Proof.
  intros Hs _ Hi.
  destruct (getitem_pos_run V L uninit float32 disk w d a (IInt i) Hs)
    as [w1 [E1 _]].
  rewrite E1. cbv beta iota delta [fst wrap_int index_axis0].
  rewrite take_one_out_of_range
    by (unfold values; rewrite length_map; assumption).
  reflexivity.
Qed.

End Selectors.

(** ** Key slices and list selectors *)

Lemma filter_keys (P : Z -> bool) (d : ActivationRanges) :
  filter P (keys d) = keys (filter (fun kr => P (fst kr)) d).
Proof.
  unfold keys. induction d as [|[k r] d IH]; simpl; [reflexivity|].
  destruct (P k); simpl; rewrite IH; reflexivity.
Qed.

Lemma dict_get_filtered (P : Z * Range -> bool) (d : ActivationRanges) :
  dict_wf d ->
  rmap (dict_get d) (keys (filter P d)) = ok (values (filter P d)).
Proof.
  intros Hwf. unfold keys, values. rewrite rmap_map.
  apply rmap_ok_map. intros [k r] Hin. simpl.
  apply dict_get_In; [assumption|].
  apply filter_In in Hin. apply Hin.
Qed.

Lemma filter_none {A} (f : A -> bool) (l : list A) :
  (forall x, In x l -> f x = false) -> filter f l = [].
Proof.
  induction l as [|x l IH]; simpl; intros H; [reflexivity|].
  rewrite (H x) by (left; reflexivity).
  apply IH. intros y Hy. apply H. right. assumption.
Qed.

Lemma concatenate_nonempty (parts : list (list Z)) :
  parts <> [] ->
  Np.concatenate parts
  = ok (Np.IndexArray
          (fold_right Np.promote Np.int64 (map (fun r => Np.dt (Np.asarray r)) parts))
          (concat parts)).
Proof. destruct parts; [contradiction|reflexivity]. Qed.

(** Non-empty ranges inside the matrix are gathered as the blocks of rows
    they denote, in the order of the ranges. *)
Lemma gather_blocks {V} (a : Np.ndarray V) (rs : list Range) :
  rs <> [] ->
  Forall (fun r => 0 <= fst r /\ fst r < snd r /\ snd r <= Np.len a) rs ->
  gather a rs
  = ok (Np.NdArray (Np.ncols a)
          (concat (map (fun r => between (Np.rows a) (fst r) (snd r)) rs))).
Proof.
  intros Hne Hall.
  assert (Hdt : fold_right Np.promote Np.int64
                  (map (fun r => Np.dt (Np.asarray r))
                       (map (fun r => Py.range (fst r) (snd r)) rs))
                = Np.int64).
  { clear Hne. induction Hall as [|r rs [H0 [Hlt Hle]] _ IH]; [reflexivity|].
    cbn [map fold_right]. rewrite IH.
    destruct (Py.range (fst r) (snd r)) eqn:Er; [|reflexivity].
    apply range_nil in Er. lia. }
  assert (Htake : Np.take (Np.rows a)
                    (concat (map (fun r => Py.range (fst r) (snd r)) rs))
                  = ok (concat (map (fun r => between (Np.rows a) (fst r) (snd r)) rs))).
  { clear Hne Hdt. induction Hall as [|r rs [H0 [Hlt Hle]] _ IH]; [reflexivity|].
    cbn [map concat]. rewrite take_app, IH.
    rewrite take_range by (unfold Np.len in Hle; lia). reflexivity. }
  unfold gather, _create_indices_from_range.
  rewrite concatenate_nonempty
    by (destruct rs; [contradiction|discriminate]).
  rewrite Hdt. cbv beta iota delta [rbind ok].
  unfold Np.getitem_array, Np.take_array. cbv beta iota delta [Np.dt Np.elems].
  rewrite Htake. reflexivity.
Qed.

Section KeySlices.

Variables V L : Type.
Variable uninit : nat -> nat -> V.
Variable float32 : V -> V.
Variable disk : Disk V L.

Implicit Types (w : World V L) (d : ActivationRanges) (a : Np.ndarray V).

(** Key-mode range lookup of a unit-step slice with a non-zero stop
    bound. *)
Lemma create_range_bounded_slice_run w d a (start step : option Z) (b : Z) :
  serves disk (self w) d a ->
  step = None \/ step = Some 1 ->
  b <> 0 ->
  exists w',
    _create_range_from_key disk (ISlice (Py.Slice start (Some b) step)) w
    = (ok (values (filter (fun kr => (match start with
                                      | Some lo => lo
                                      | None => 0
                                      end <=? fst kr) && (fst kr <? b)) d)), w')
    /\ serves disk (self w') d a.
Proof.
  intros Hs Hstep Hb.
  destruct (activation_ranges_run V L disk w d a Hs) as [w1 [E1 [S1 _]]].
  exists w1. split; [|assumption].
  unfold _create_range_from_key. simpl Py.step. simpl Py.start. simpl Py.stop.
  assert (Hassert : match step with None => true | Some st => st =? 1 end = true)
    by (destruct Hstep; subst; reflexivity).
  rewrite Hassert. unfold assert.
  rewrite (bind_ok V L _ _ w tt w) by reflexivity.
  assert (Htruthy : Py.truthy (Some b) = true)
    by (simpl; apply negb_true_iff, Z.eqb_neq; assumption).
  rewrite Htruthy.
  rewrite (bind_ok V L _ _ w b w) by reflexivity.
  rewrite (bind_ok V L _ _ _ _ _ E1).
  unfold ret, ok, values. f_equal. f_equal. f_equal.
  apply filter_ext. intros kr.
  destruct start as [lo|]; [|reflexivity].
  simpl. destruct (Z.eqb_spec lo 0); subst; reflexivity.
Qed.

(** X6.  A unit-step key slice [start:stop] with a non-zero stop bound is
    the list selector of the keys [k] of the RangeTable with
    [start <= k < stop], in table order ([start] counting as 0 when absent
    or zero). *)
Theorem getitem_key_slice_is_key_list w d a (start step : option Z) (b : Z) :
  serves disk (self w) d a ->
  dict_wf d ->
  step = None \/ step = Some 1 ->
  b <> 0 ->
  fst (getitem uninit float32 disk
         (KTuple (ISlice (Py.Slice start (Some b) step)) [AStr "key"]) w)
  = fst (getitem uninit float32 disk
           (KTuple (IList (filter (fun k => (match start with
                                             | Some lo => lo
                                             | None => 0
                                             end <=? k) && (k <? b)) (keys d)))
                   [AStr "key"]) w).
Proof.
  intros Hs Hwf Hstep Hb.
  destruct (create_range_bounded_slice_run w d a start step b Hs Hstep Hb)
    as [w1 [E1 _]].
  rewrite (getitem_key_run V L uninit float32 disk w a
             (ISlice (Py.Slice start (Some b) step)) _ w1 (proj2 Hs) E1).
  destruct (getitem_key_list_run V L uninit float32 disk w d a
              (filter (fun k => (match start with
                                 | Some lo => lo
                                 | None => 0
                                 end <=? k) && (k <? b)) (keys d)) Hs)
    as [w2 [E2 _]].
  rewrite E2. cbv beta iota delta [fst].
  rewrite (filter_keys (fun k => (match start with
                                  | Some lo => lo
                                  | None => 0
                                  end <=? k) && (k <? b)) d).
  rewrite dict_get_filtered by assumption. reflexivity.
Qed.

(** X7.  A unit-step key slice with a non-zero stop bound that contains no
    key of the RangeTable does not yield an empty array: it fails with
    [ValueError]. *)
Theorem getitem_key_slice_without_keys w d a (start step : option Z) (b : Z) :
  serves disk (self w) d a ->
  step = None \/ step = Some 1 ->
  b <> 0 ->
  (forall k, In k (keys d) ->
             ~ (match start with Some lo => lo | None => 0 end <= k < b)) ->
  fst (getitem uninit float32 disk
         (KTuple (ISlice (Py.Slice start (Some b) step)) [AStr "key"]) w)
  = raise ValueError.
Proof.
  intros Hs Hstep Hb Hnone.
  destruct (create_range_bounded_slice_run w d a start step b Hs Hstep Hb)
    as [w1 [E1 _]].
  rewrite (getitem_key_run V L uninit float32 disk w a
             (ISlice (Py.Slice start (Some b) step)) _ w1 (proj2 Hs) E1).
  replace (filter (fun kr : Z * Range =>
                     (match start with
                      | Some lo => lo
                      | None => 0
                      end <=? fst kr) && (fst kr <? b)) d)
    with (@nil (Z * Range)); [reflexivity|].
  symmetry. apply filter_none. intros kr Hin.
  apply andb_false_iff.
  assert (Hk : In (fst kr) (keys d)) by (unfold keys; apply in_map; assumption).
  specialize (Hnone (fst kr) Hk).
  destruct (Z.leb_spec (match start with Some lo => lo | None => 0 end) (fst kr));
    [right|left; reflexivity].
  apply Z.ltb_ge. lia.
Qed.

(** X8.  A non-empty list of keys of the RangeTable whose ranges are
    non-empty and lie inside the matrix returns the blocks of rows of
    these ranges concatenated in the order of the list; a key may occur
    several times. *)
Theorem getitem_key_list_blocks w d a (l : list Z) (rs : list Range) :
  serves disk (self w) d a ->
  l <> [] ->
  rmap (dict_get d) l = ok rs ->
  Forall (fun r => 0 <= fst r /\ fst r < snd r /\ snd r <= Np.len a) rs ->
  fst (getitem uninit float32 disk (KTuple (IList l) [AStr "key"]) w)
  = ok (Np.NdArray (Np.ncols a)
          (concat (map (fun r => between (Np.rows a) (fst r) (snd r)) rs))).
Proof.
  intros Hs Hne Hrs Hall.
  destruct (getitem_key_list_run V L uninit float32 disk w d a l Hs)
    as [w' [E _]].
  rewrite E, Hrs. cbv beta iota delta [fst rbind ok].
  apply gather_blocks; [|assumption].
  intros Hnil. subst rs. apply rmap_length in Hrs.
  destruct l; [contradiction|discriminate].
Qed.

(** X9.  When the ranges of a non-empty RangeTable are non-empty and,
    taken in extraction order, consecutive from row 0 to the last row of
    the matrix, the full position slice [reader[:]] returns the whole
    matrix. *)
Theorem getitem_full_slice_is_matrix w d a :
  serves disk (self w) d a ->
  d <> [] ->
  tiles (values d) 0 (Np.len a) = true ->
  fst (getitem uninit float32 disk (KIndex (ISlice (Py.Slice None None None))) w)
  = ok a.
Proof.
  intros Hs Hne Ht.
  destruct (getitem_pos_run V L uninit float32 disk w d a
              (ISlice (Py.Slice None None None)) Hs) as [w' [E _]].
  rewrite E. cbv beta iota delta [fst wrap_int index_axis0].
  rewrite getslice_full. cbv beta iota delta [rbind ok].
  rewrite gather_blocks.
  - rewrite (tiles_blocks (Np.rows a) (values d) 0 (Np.len a)) by (lia || assumption).
    unfold Np.len. rewrite between_all. destruct a; reflexivity.
  - unfold values. destruct d; [contradiction|discriminate].
  - apply Forall_forall. intros [s e] Hin.
    destruct (tiles_bounds _ _ _ _ _ Ht Hin) as [B1 [B2 B3]].
    simpl. lia.
Qed.

End KeySlices.

(** ** Stepped slices *)



Section SteppedSlices.

Variables V L : Type.
Variable uninit : nat -> nat -> V.
Variable float32 : V -> V.
Variable disk : Disk V L.

Implicit Types (w : World V L) (d : ActivationRanges) (a : Np.ndarray V).


End SteppedSlices.


(** ** Lazy loading and selection *)

Section Caching.

Variables V L : Type.
Variable uninit : nat -> nat -> V.
Variable float32 : V -> V.
Variable disk : Disk V L.

Implicit Types (w : World V L) (d : ActivationRanges) (a : Np.ndarray V).

Lemma labels_cached w (ls : list L) w1 :
  labels disk w = (ok ls, w1) -> labels disk w1 = (ok ls, w1).
Proof.
  unfold labels, bind, get, load_pickle, bind, emit, modify, ret.
  destruct w as [s t]; simpl.
  destruct (_labels s) as [ls'|] eqn:El.
  - intros H; inversion H; subst. simpl. rewrite El. reflexivity.
  - destruct (label_files disk (label_path s)) as [ls'|]; simpl;
      intros H; inversion H; subst. reflexivity.
Qed.

(** X10.  The RangeTable, the labels and the sequence count are loaded at
    most once: after a successful access, the next access returns the same
    value and leaves the reader and the trace of file accesses as they
    are. *)
Theorem lazy_properties_are_cached w :
  (forall d w1, activation_ranges disk w = (ok d, w1) ->
                activation_ranges disk w1 = (ok d, w1))
  /\ (forall ls w1, labels disk w = (ok ls, w1) ->
                    labels disk w1 = (ok ls, w1))
  /\ (forall n w1, data_len disk w = (ok n, w1) ->
                   data_len disk w1 = (ok n, w1)).
Proof.
  split; [|split].
  - intros d w1.
    unfold activation_ranges, bind, get, load_pickle, bind, emit, modify, ret.
    destruct w as [s t]; simpl.
    destruct (_activation_ranges s) as [d'|] eqn:Ed.
    + intros H; inversion H; subst. simpl. rewrite Ed. reflexivity.
    + destruct (range_files disk _) as [d'|]; simpl;
        intros H; inversion H; subst. reflexivity.
  - intros ls w1. apply labels_cached.
  - intros n w1. unfold data_len.
    rewrite (bind_ok V L _ _ w (self w) w) by reflexivity.
    destruct (Z.eqb_spec (_data_len (self w)) (-1)) as [Heq|Hne].
    + destruct (labels disk w) as [[e|ls] w2] eqn:El.
      * rewrite (bind_raise V L _ _ _ _ _ El). discriminate.
      * rewrite (bind_ok V L _ _ _ _ _ El).
        unfold bind, modify, ret. simpl.
        intros H; inversion H; subst. simpl.
        destruct (Z.eqb_spec (Z.of_nat (length ls)) (-1)); [lia|reflexivity].
    + unfold ret. intros H; inversion H; subst.
      rewrite (bind_ok V L _ _ w1 (self w1) w1) by reflexivity.
      destruct (Z.eqb_spec (_data_len (self w1)) (-1)); [contradiction|].
      reflexivity.
Qed.

(** X11.  When the file of a newly selected activation name cannot be
    opened, the selection fails with [FileNotFoundError] after the active
    identity has been changed: the reader then carries the new name with
    the matrix of the previous one, and selecting the same name again is a
    silent no-op. *)
Theorem failed_selection_keeps_old_matrix w (name : ActivationName) :
  match activation_name (self w) with
  | Some b => name_eqb name b
  | None => false
  end = false ->
  activation_files disk (activation_path (self w) name) = None ->
  let r := activations_setter uninit float32 disk (Some name) w in
  fst r = raise FileNotFoundError
  /\ activation_name (self (snd r)) = Some name
  /\ _activations (self (snd r)) = _activations (self w)
  /\ activations_setter uninit float32 disk (Some name) (snd r) = (ok tt, snd r).
Proof.
  intros Hdiff Hfile r. subst r.
  set (w1 := {| self := set_activation_name V L (Some name) (self w);
                trace := trace w |}).
  set (w2 := {| self := self w1;
                trace := trace w1
                         ++ [OpenActivations (activation_path (self w) name)] |}).
  assert (Hread : read_activations uninit float32 disk name w1
                  = (raise FileNotFoundError, w2)).
  { unfold read_activations.
    rewrite (bind_ok V L _ _ w1 (self w1) w1) by reflexivity.
    rewrite (bind_ok V L _ _ w1 tt w2) by reflexivity.
    change (activations_dir (self w1) ++ "/" ++ activation_filename name)%string
      with (activation_path (self w) name).
    rewrite Hfile. reflexivity. }
  assert (Hset : activations_setter uninit float32 disk (Some name) w
                 = (raise FileNotFoundError, w2)).
  { unfold activations_setter.
    rewrite (bind_ok V L _ _ w (self w) w) by reflexivity.
    rewrite Hdiff. cbv beta iota delta [negb].
    rewrite (bind_ok V L _ _ w tt w1) by reflexivity.
    rewrite (bind_raise V L _ _ _ _ _ Hread). reflexivity. }
  rewrite Hset. cbv beta iota delta [fst snd].
  split; [reflexivity|]. split; [reflexivity|]. split; [reflexivity|].
  unfold activations_setter.
  rewrite (bind_ok V L _ _ w2 (self w2) w2) by reflexivity.
  change (activation_name (self w2)) with (Some name).
  cbv beta iota. rewrite name_eqb_refl. reflexivity.
Qed.

(** X12.  Indexing with an activation name whose file holds no dump fails
    with [AssertionError]: the load yields no matrix, and the labels are
    not read. *)
Theorem getitem_after_empty_file w (index : ActivationIndex)
        (name : ActivationName) :
  match activation_name (self w) with
  | Some b => name_eqb name b
  | None => false
  end = false ->
  activation_files disk (activation_path (self w) name) = Some [] ->
  let r := getitem uninit float32 disk (KTuple index [AName name]) w in
  fst r = raise AssertionError
  /\ _activations (self (snd r)) = None
  /\ _labels (self (snd r)) = _labels (self w)
  /\ trace (snd r)
     = trace w ++ [OpenActivations (activation_path (self w) name)].
Proof.
  intros Hdiff Hfile r. subst r.
  rewrite getitem_with_name_is_select_then_index.
  set (w3 := {| self := set__activations V L None
                          (set_activation_name V L (Some name) (self w));
                trace := trace w
                         ++ [OpenActivations (activation_path (self w) name)] |}).
  assert (Hsel : activations_setter uninit float32 disk (Some name) w
                 = (ok tt, w3)).
  { unfold activations_setter.
    rewrite (bind_ok V L _ _ w (self w) w) by reflexivity.
    rewrite Hdiff. cbv beta iota delta [negb].
    set (w1 := {| self := set_activation_name V L (Some name) (self w);
                  trace := trace w |}).
    rewrite (bind_ok V L _ _ w tt w1) by reflexivity.
    set (w2 := {| self := self w1;
                  trace := trace w1
                           ++ [OpenActivations (activation_path (self w) name)] |}).
    assert (Hread : read_activations uninit float32 disk name w1 = (ok None, w2)).
    { unfold read_activations.
      rewrite (bind_ok V L _ _ w1 (self w1) w1) by reflexivity.
      rewrite (bind_ok V L _ _ w1 tt w2) by reflexivity.
      change (activations_dir (self w1) ++ "/" ++ activation_filename name)%string
        with (activation_path (self w) name).
      rewrite Hfile. reflexivity. }
    rewrite (bind_ok V L _ _ _ _ _ Hread). reflexivity. }
  rewrite (bind_ok V L _ _ _ _ _ Hsel).
  unfold getitem.
  rewrite (bind_ok V L _ _ w3 (wrap_int index, "pos") w3) by reflexivity.
  rewrite (bind_ok V L _ _ w3 _ w3 (activations_run V L w3)).
  simpl. repeat split.
Qed.

(** X13.  A stream of dumps of one width whose total row count is the
    sequence count loads into the matrix made of the rows of the dumps, in
    order, converted to float32: no row is left as allocated. *)
Theorem read_activations_exact w (ls : list L) (name : ActivationName) c0
        (rest : list (Np.ndarray V)) :
  labelled disk (self w) ls ->
  activation_files disk (activation_path (self w) name) = Some (c0 :: rest) ->
  same_width (Np.ncols c0) (c0 :: rest) = true ->
  total_rows (c0 :: rest) = Z.of_nat (length ls) ->
  fst (read_activations uninit float32 disk name w)
  = ok (Some (Np.NdArray (Np.ncols c0)
                (map (map float32) (concat (map Np.rows (c0 :: rest)))))).
Proof.
  intros Hl Hf Hw Htot.
  destruct (read_activations_fits_run V L uninit float32 disk w ls name c0 rest
              Hl Hf Hw ltac:(lia)) as [m [w' [E [_ [Hlen [Hc Hrows]]]]]].
  rewrite E. cbv beta iota delta [fst]. f_equal. f_equal.
  rewrite Htot, <- Hlen in Hrows. unfold Np.len in Hrows.
  rewrite between_all in Hrows.
  destruct m as [h rs]. simpl in *. subst. reflexivity.
Qed.

End Caching.

(** ** What [create_data_split] leaves alone *)

Section Frame.

Variables V L : Type.
Variable uninit : nat -> nat -> V.
Variable float32 : V -> V.
Variable disk : Disk V L.

Implicit Types (w : World V L).

Lemma cache_kept_refl w : cache_kept w w [].
Proof. repeat split; try reflexivity. rewrite app_nil_r. reflexivity. Qed.

Lemma cache_kept_trans w1 w2 w3 (n1 n2 : list event) :
  cache_kept w1 w2 n1 -> cache_kept w2 w3 n2 -> cache_kept w1 w3 (n1 ++ n2).
Proof.
  intros [A1 [B1 [C1 [D1 E1]]]] [A2 [B2 [C2 [D2 E2]]]].
  repeat split; try congruence.
  rewrite E2, E1, app_assoc. reflexivity.
Qed.

Lemma keeps_ret {A} (x : A) : keeps_cache (@ret V L A x).
Proof. intros w. exists []. apply cache_kept_refl. Qed.

Lemma keeps_throw {A} (e : exn) : keeps_cache (@throw V L A e).
Proof. intros w. exists []. apply cache_kept_refl. Qed.

Lemma keeps_lift {A} (r : result A) : keeps_cache (@lift V L A r).
Proof. intros w. exists []. apply cache_kept_refl. Qed.

Lemma keeps_assert (b : bool) : keeps_cache (assert V L b).
Proof. destruct b; [apply keeps_ret|apply keeps_throw]. Qed.

Lemma keeps_bind {A B} (m : M V L A) (k : A -> M V L B) :
  keeps_cache m -> (forall x, keeps_cache (k x)) -> keeps_cache (bind m k).
Proof.
  intros Hm Hk w. destruct (Hm w) as [n1 H1]. unfold bind.
  destruct (m w) as [[e|x] w1]; simpl in H1.
  - exists n1. exact H1.
  - destruct (Hk x w1) as [n2 H2]. exists (n1 ++ n2).
    eapply cache_kept_trans; eassumption.
Qed.

Lemma keeps_labels : keeps_cache (labels disk).
Proof.
  intros w. unfold labels, bind, get, load_pickle, bind, emit, modify, ret.
  destruct w as [s t]; simpl.
  destruct (_labels s).
  - exists []. apply cache_kept_refl.
  - destruct (label_files disk (label_path s)); simpl;
      eexists; repeat split; reflexivity.
Qed.

Lemma keeps_data_len : keeps_cache (data_len disk).
Proof.
  unfold data_len. apply keeps_bind; [intros w; exists []; apply cache_kept_refl|].
  intros s. destruct (_data_len s =? -1); [|apply keeps_ret].
  apply keeps_bind; [apply keeps_labels|]. intros ls.
  apply keeps_bind; [|intros; apply keeps_ret].
  intros w. exists []. repeat split; simpl; try reflexivity.
  rewrite app_nil_r. reflexivity.
Qed.

Lemma keeps_read_loop (dumps : list (Np.ndarray V)) :
  forall hidden_size acts n,
    keeps_cache (read_loop uninit float32 disk dumps hidden_size acts n).
Proof.
  induction dumps as [|c dumps IH]; intros hidden_size acts n; simpl.
  - apply keeps_ret.
  - apply keeps_bind.
    + destruct hidden_size; [apply keeps_ret|].
      apply keeps_bind; [apply keeps_data_len|intros; apply keeps_ret].
    + intros ha. destruct (snd ha); [|apply keeps_throw].
      apply keeps_bind; [apply keeps_lift|]. intros a'. apply IH.
Qed.

(** [read_activations] keeps the cache and first of all opens the file of
    the activation name. *)
Lemma read_activations_opens (name : ActivationName) w :
  exists new,
    cache_kept w (snd (read_activations uninit float32 disk name w))
               (OpenActivations (activation_path (self w) name) :: new).
Proof.
  unfold read_activations.
  rewrite (bind_ok V L _ _ w (self w) w) by reflexivity.
  set (w1 := {| self := self w;
                trace := trace w
                         ++ [OpenActivations (activation_path (self w) name)] |}).
  rewrite (bind_ok V L _ _ w tt w1) by reflexivity.
  assert (H1 : cache_kept w w1 [OpenActivations (activation_path (self w) name)])
    by (repeat split; reflexivity).
  change (activations_dir (self w) ++ "/" ++ activation_filename name)%string
    with (activation_path (self w) name).
  destruct (activation_files disk (activation_path (self w) name)) as [dumps|].
  - destruct (keeps_read_loop dumps None None 0 w1) as [n2 H2].
    exists n2.
    exact (cache_kept_trans _ _ _ _ _ H1 H2).
  - exists []. exact H1.
Qed.

(** X14.  [create_data_split] never touches the cache of the reader:
    whatever its outcome, the cached matrix, the active identity and the
    cached RangeTable are as before.  It does not reuse the cached matrix
    either: whenever it returns a split, it has opened the file of the
    activation name during the call. *)
Theorem create_data_split_keeps_cache_and_rereads w (name : ActivationName)
        (size : Z) (ratio : Py.float) (choice : Z -> list Z) :
  let r := create_data_split uninit float32 disk name size ratio choice w in
  exists new,
    cache_kept w (snd r) new
    /\ forall dd, fst r = ok dd ->
                  In (OpenActivations (activation_path (self w) name)) new.
Proof.
  intros r. subst r. unfold create_data_split.
  set (validate := if negb (size =? -1)
                   then (if 0 <? size
                         then bind (data_len disk)
                                   (fun dl => assert V L (size <=? dl))
                         else assert V L false)
                   else ret tt).
  assert (Hval : keeps_cache validate).
  { subst validate. destruct (negb (size =? -1)); [|apply keeps_ret].
    destruct (0 <? size); [|apply keeps_assert].
    apply keeps_bind; [apply keeps_data_len|intros; apply keeps_assert]. }
  destruct (Hval w) as [n1 H1].
  destruct (validate w) as [[e|[]] w1] eqn:Ev; simpl in H1.
  { rewrite (bind_raise V L _ _ _ _ _ Ev).
    exists n1. split; [exact H1|intros dd Hdd; discriminate]. }
  rewrite (bind_ok V L _ _ _ _ _ Ev).
  destruct (read_activations_opens name w1) as [n2 H2].
  assert (Hpath : activation_path (self w1) name = activation_path (self w) name).
  { unfold activation_path. destruct H1 as [_ [_ [_ [D1 _]]]]. rewrite D1.
    reflexivity. }
  rewrite Hpath in H2.
  destruct (read_activations uninit float32 disk name w1) as [[e|acts] w2] eqn:Er;
    simpl in H2.
  { rewrite (bind_raise V L _ _ _ _ _ Er).
    eexists. split; [exact (cache_kept_trans _ _ _ _ _ H1 H2)|
                     intros dd Hdd; discriminate]. }
  rewrite (bind_ok V L _ _ _ _ _ Er).
  match goal with
  | |- context [snd (?rest w2)] =>
      assert (Hrest : exists n3, cache_kept w2 (snd (rest w2)) n3)
  end.
  { apply (keeps_bind (if size =? -1 then data_len disk else ret size)).
    - destruct (size =? -1); [apply keeps_data_len|apply keeps_ret].
    - intros data_size. apply keeps_bind; [apply keeps_lift|]. intros sp.
      destruct acts as [a|]; [|apply keeps_throw].
      apply keeps_bind; [apply keeps_lift|]. intros trx.
      apply keeps_bind; [apply keeps_labels|]. intros ls.
      apply keeps_bind; [apply keeps_lift|]. intros try_.
      apply keeps_bind; [apply keeps_lift|]. intros tex.
      apply keeps_bind; [apply keeps_labels|]. intros ls'.
      apply keeps_bind; [apply keeps_lift|]. intros tey.
      apply keeps_ret. }
  destruct Hrest as [n3 H3].
  eexists. split.
  - exact (cache_kept_trans _ _ _ _ _ (cache_kept_trans _ _ _ _ _ H1 H2) H3).
  - intros _ _. apply in_or_app. left. apply in_or_app. right. left. reflexivity.
Qed.

End Frame.

(** ** Selecting an activation *)

Section Selection.

Variables V L : Type.
Variable uninit : nat -> nat -> V.
Variable float32 : V -> V.
Variable disk : Disk V L.

Implicit Types (w : World V L).

(** X22.  Selecting an activation name other than the active one, whose
    file holds dumps of one width with as many rows as there are labels,
    makes that name the active identity and caches the matrix made of the
    rows of the dumps, in order, converted to float32. *)
Theorem selection_loads_matrix w (ls : list L) (name : ActivationName) c0
        (rest : list (Np.ndarray V)) :
  match activation_name (self w) with
  | Some b => name_eqb name b
  | None => false
  end = false ->
  labelled disk (self w) ls ->
  activation_files disk (activation_path (self w) name) = Some (c0 :: rest) ->
  same_width (Np.ncols c0) (c0 :: rest) = true ->
  total_rows (c0 :: rest) = Z.of_nat (length ls) ->
  let r := activations_setter uninit float32 disk (Some name) w in
  fst r = ok tt
  /\ activation_name (self (snd r)) = Some name
  /\ _activations (self (snd r))
     = Some (Np.NdArray (Np.ncols c0)
               (map (map float32) (concat (map Np.rows (c0 :: rest))))).
Proof.
  intros Hdiff Hl Hf Hw Htot r. subst r.
  set (w1 := {| self := set_activation_name V L (Some name) (self w);
                trace := trace w |}).
  assert (Hl1 : labelled disk (self w1) ls) by exact Hl.
  assert (Hf1 : activation_files disk (activation_path (self w1) name)
                = Some (c0 :: rest)) by exact Hf.
  pose proof (read_activations_exact V L uninit float32 disk w1 ls name c0 rest
                Hl1 Hf1 Hw Htot) as Hex.
  destruct (read_activations_opens V L uninit float32 disk name w1) as [new Hk].
  destruct (read_activations uninit float32 disk name w1) as [res w2] eqn:Er.
  simpl in Hex, Hk. subst res.
  assert (Hset : activations_setter uninit float32 disk (Some name) w
                 = (ok tt,
                    {| self := set__activations V L
                                 (Some (Np.NdArray (Np.ncols c0)
                                          (map (map float32)
                                               (concat (map Np.rows (c0 :: rest))))))
                                 (self w2);
                       trace := trace w2 |})).
  { unfold activations_setter.
    rewrite (bind_ok V L _ _ w (self w) w) by reflexivity.
    rewrite Hdiff. cbv beta iota delta [negb].
    rewrite (bind_ok V L _ _ w tt w1) by reflexivity.
    rewrite (bind_ok V L _ _ _ _ _ Er). reflexivity. }
  rewrite Hset. cbv beta iota delta [fst snd].
  split; [reflexivity|]. split; [|reflexivity].
  destruct Hk as [_ [Hname _]]. simpl. exact Hname.
Qed.

End Selection.

(** * Properties of the configuration set-up *)

(** ** [cast_activation_names] *)

Lemma last_char_snoc (base : string) (c : ascii) :
  Setup.last_char (base ++ String c "") = ok c.
Proof.
  induction base as [|b base IH]; [reflexivity|].
  simpl. destruct (base ++ String c "")%string eqn:E.
  - destruct base; discriminate.
  - exact IH.
Qed.

Lemma but_last_snoc (base : string) (c : ascii) :
  Setup.but_last (base ++ String c "") = base.
Proof.
  induction base as [|b base IH]; [reflexivity|].
  simpl. destruct (base ++ String c "")%string eqn:E.
  - destruct base; discriminate.
  - rewrite IH. reflexivity.
Qed.

Lemma cast_name_snoc (base : string) (c : ascii) :
  Setup.cast_name (base ++ String c "")
  = (try l <- Setup.int_of_char c; ok (l, base)).
Proof.
  unfold Setup.cast_name. rewrite last_char_snoc, but_last_snoc. reflexivity.
Qed.

(** X15.  A name made of a base followed by one decimal digit, as the
    reader prints a layer below 10, is cast to the pair of that layer and
    the base. *)
Theorem cast_name_digit_suffix (base : string) (l : Z) :
  0 <= l <= 9 ->
  Setup.cast_name (base ++ Py.str_of_int l) = ok (l, base).
Proof.
  intros Hl.
  assert (Hcases : l = 0 \/ l = 1 \/ l = 2 \/ l = 3 \/ l = 4 \/ l = 5
                   \/ l = 6 \/ l = 7 \/ l = 8 \/ l = 9) by lia.
  destruct Hcases as [->|[->|[->|[->|[->|[->|[->|[->|[->| ->]]]]]]]]];
    apply cast_name_snoc.
Qed.

(** X16.  [cast_activation_names] updates the list in place and stops at
    the first name that cannot be cast: the names before it are left cast,
    the failing name and those after it are left as they were, and the
    exception of the failing name is raised.  When every name can be
    cast, all entries are replaced and nothing is raised. *)
Theorem cast_activation_names_in_place (good : list string)
        (casts : list ActivationName) :
  rmap Setup.cast_name good = ok casts ->
  Setup.cast_activation_names good = (ok tt, map Setup.Cast casts)
  /\ forall bad rest e,
      Setup.cast_name bad = raise e ->
      Setup.cast_activation_names (good ++ bad :: rest)
      = (raise e, map Setup.Cast casts ++ map Setup.Raw (bad :: rest)).
Proof.
  revert casts; induction good as [|name good IH]; intros casts Hc.
  - inversion Hc; subst. split; [reflexivity|].
    intros bad rest e He. simpl. unfold raise in He. rewrite He. reflexivity.
  - simpl in Hc.
    destruct (Setup.cast_name name) as [e0|a] eqn:Ea; simpl in Hc; [discriminate|].
    destruct (rmap Setup.cast_name good) as [e0|cs] eqn:Eg; simpl in Hc;
      [discriminate|].
    inversion Hc; subst. destruct (IH cs eq_refl) as [IH1 IH2].
    split.
    + simpl. rewrite Ea, IH1. reflexivity.
    + intros bad rest e He. simpl. rewrite Ea.
      rewrite (IH2 bad rest e He). reflexivity.
Qed.

(** X17.  A name that is empty, or whose last character is not a decimal
    digit, cannot be cast: the first raises [IndexError], the second
    [ValueError]. *)
Theorem cast_name_rejects (base : string) (c : ascii) :
  Setup.cast_name "" = raise IndexError
  /\ (Setup.int_of_char c = raise ValueError ->
      Setup.cast_name (base ++ String c "") = raise ValueError).
Proof.
  split; [reflexivity|].
  intros Hc. rewrite cast_name_snoc, Hc. reflexivity.
Qed.

(** ** [add_cmd_args] *)

Lemma split_dot_nonempty (s : string) : Setup.split_dot s <> [].
Proof.
  induction s as [|c s IH]; simpl; [discriminate|].
  destruct (Ascii.eqb c "."); [discriminate|].
  destruct (Setup.split_dot s); discriminate.
Qed.

(** Splitting at the dots loses nothing. *)
Lemma join_split_dot (s : string) : Setup.join_dot (Setup.split_dot s) = s.
Proof.
  induction s as [|c s IH]; [reflexivity|].
  simpl. destruct (Ascii.eqb_spec c ".") as [->|Hne].
  - pose proof (split_dot_nonempty s) as Hn.
    destruct (Setup.split_dot s) as [|h t]; [contradiction|].
    change (Setup.join_dot ("" :: h :: t))
      with ("" ++ "." ++ Setup.join_dot (h :: t))%string.
    rewrite IH. reflexivity.
  - pose proof (split_dot_nonempty s) as Hn.
    destruct (Setup.split_dot s) as [|h t]; [contradiction|].
    destruct t as [|h' t].
    + simpl in *. rewrite IH. reflexivity.
    + change (Setup.join_dot (String c h :: h' :: t))
        with (String c (h ++ "." ++ Setup.join_dot (h' :: t)))%string.
      change (Setup.join_dot (h :: h' :: t))
        with (h ++ "." ++ Setup.join_dot (h' :: t))%string in IH.
      rewrite IH. reflexivity.
Qed.

Section ConfigFacts.

Variable Val : Type.
Variable merge_dicts : Setup.value Val -> Setup.value Val -> Setup.value Val.

Lemma get_path_nest (path : list string) (val : Setup.value Val) :
  Setup.get_path (Setup.nest (rev path) val) path = Some val.
Proof.
  induction path as [|k path IH]; [reflexivity|].
  unfold Setup.nest in *. simpl rev. rewrite fold_left_app. simpl.
  rewrite String.eqb_refl. exact IH.
Qed.

(** X18.  A command-line argument [g.k1...kn] with a value, other than
    [config], is merged last into the configuration built from the
    arguments before it, as the nested dict in which the keys
    [g], [k1], ..., [kn] lead to the value; the argument name is recovered
    by joining these keys with dots. *)
Theorem add_cmd_args_appends_nested (config_dict val : Setup.value Val)
        (cmd_args : list (string * option (Setup.value Val))) (arg : string) :
  String.eqb arg "config" = false ->
  exists nested,
    Setup.add_cmd_args merge_dicts config_dict (cmd_args ++ [(arg, Some val)])
    = merge_dicts (Setup.add_cmd_args merge_dicts config_dict cmd_args) nested
    /\ Setup.get_path nested (Setup.split_dot arg) = Some val
    /\ Setup.join_dot (Setup.split_dot arg) = arg.
Proof.
  intros Harg. exists (Setup.nest (rev (Setup.split_dot arg)) val).
  split; [|split; [apply get_path_nest|apply join_split_dot]].
  unfold Setup.add_cmd_args. rewrite flat_map_app, fold_left_app.
  simpl. rewrite Harg. reflexivity.
Qed.

(** X19.  Arguments without value and the argument [config] are ignored:
    when there is no other argument, the configuration is returned as it
    is, [merge_dicts] not being applied. *)
Theorem add_cmd_args_without_values (config_dict : Setup.value Val)
        (cmd_args : list (string * option (Setup.value Val))) :
  Forall (fun av => snd av = None \/ fst av = "config") cmd_args ->
  Setup.add_cmd_args merge_dicts config_dict cmd_args = config_dict.
Proof.
  intros Hall. unfold Setup.add_cmd_args.
  replace (flat_map _ cmd_args) with (@nil (Setup.value Val)); [reflexivity|].
  symmetry. induction Hall as [|[arg v] cmd_args Hav _ IH]; [reflexivity|].
  simpl. rewrite IH. simpl in Hav.
  destruct Hav as [->| ->]; [reflexivity|].
  destruct v; reflexivity.
Qed.

(** ** [validate_config] *)

Lemma config_args_In (config_dict : list (string * Setup.value Val))
      (args : list string) (arg : string) :
  Setup.config_args config_dict = inr args ->
  (In arg args <->
   exists g items k,
     In (g, Setup.Dict items) config_dict
     /\ In k (map fst items)
     /\ arg = (g ++ "." ++ k)%string).
Proof.
  revert args; induction config_dict as [|[g v] rest IH]; simpl; intros args H.
  - inversion H; subst. split; [intros []|intros [g [items [k [[] _]]]]].
  - destruct v as [v|items]; [discriminate|].
    destruct (Setup.config_args rest) as [e|args'] eqn:Er; [discriminate|].
    inversion H; subst. rewrite in_app_iff, (IH args' eq_refl). split.
    + intros [Hin|[g' [items' [k [Hg [Hk Ha]]]]]].
      * apply in_map_iff in Hin. destruct Hin as [[k v'] [Ha Hin]].
        exists g, items, k. split; [left; reflexivity|].
        split; [|symmetry; exact Ha].
        change k with (fst (k, v')). apply in_map. assumption.
      * exists g', items', k. split; [right; assumption|]. split; assumption.
    + intros [g' [items' [k [[Heq|Hg] [Hk Ha]]]]].
      * inversion Heq; subst. left. apply in_map_iff in Hk.
        destruct Hk as [kv [Hfst Hin]]. apply in_map_iff.
        exists kv. rewrite Hfst. split; [reflexivity|assumption].
      * right. exists g', items', k. split; [assumption|]. split; assumption.
Qed.

Lemma config_args_of_dicts (config_dict : list (string * Setup.value Val)) :
  Forall (fun gv => exists items, snd gv = Setup.Dict items) config_dict ->
  exists args, Setup.config_args config_dict = inr args.
Proof.
  induction 1 as [|[g v] rest [items Hv] _ [args IH]]; simpl.
  - eexists; reflexivity.
  - simpl in Hv. subst v. rewrite IH. eexists; reflexivity.
Qed.

(** X20.  On a configuration whose groups are all dicts, [validate_config]
    passes exactly when every required argument is [g.k] for a group [g]
    of the configuration and a key [k] of that group; otherwise it exits
    through [argparser.error]. *)
Theorem validate_config_passes_iff (required_args : list string)
        (config_dict : list (string * Setup.value Val)) :
  Forall (fun gv => exists items, snd gv = Setup.Dict items) config_dict ->
  (Setup.validate_config required_args config_dict = inr tt
   <-> forall arg, In arg required_args ->
         exists g items k,
           In (g, Setup.Dict items) config_dict
           /\ In k (map fst items)
           /\ arg = (g ++ "." ++ k)%string)
  /\ (Setup.validate_config required_args config_dict = inr tt
      \/ Setup.validate_config required_args config_dict = inl Setup.SystemExit).
Proof.
  intros Hd. destruct (config_args_of_dicts config_dict Hd) as [args Ea].
  unfold Setup.validate_config. rewrite Ea.
  destruct (forallb (fun arg => existsb (String.eqb arg) args) required_args)
    eqn:Ef.
  - split; [|left; reflexivity]. split; [|reflexivity].
    intros _ arg Hin. rewrite forallb_forall in Ef.
    specialize (Ef arg Hin). apply existsb_exists in Ef.
    destruct Ef as [x [Hx Heq]]. apply String.eqb_eq in Heq. subst x.
    apply (config_args_In config_dict args arg Ea). assumption.
  - split; [|right; reflexivity]. split; [discriminate|].
    intros Hall. exfalso.
    assert (Ht : forallb (fun arg => existsb (String.eqb arg) args) required_args
                 = true); [|congruence].
    apply forallb_forall. intros arg Hin. apply existsb_exists.
    exists arg. split; [|apply String.eqb_refl].
    apply (config_args_In config_dict args arg Ea). apply Hall. assumption.
Qed.

(** X21.  A group of the configuration that is not a dict makes
    [validate_config] fail with [AttributeError], whatever the required
    arguments, even none. *)
Theorem validate_config_non_dict_group (required_args : list string)
        (config_dict : list (string * Setup.value Val)) (g : string) (v : Val) :
  In (g, Setup.Leaf v) config_dict ->
  Setup.validate_config required_args config_dict = inl Setup.AttributeError.
Proof.
  intros Hin. unfold Setup.validate_config.
  replace (Setup.config_args config_dict)
    with (@inl Setup.setup_exn (list string) Setup.AttributeError);
    [reflexivity|].
  symmetry. induction config_dict as [|[g' v'] rest IH]; [contradiction|].
  simpl. destruct Hin as [Heq|Hin].
  - inversion Heq; subst. reflexivity.
  - destruct v'; [reflexivity|]. rewrite (IH Hin). reflexivity.
Qed.

End ConfigFacts.

(** ** The further properties on the examples *)

Lemma getitem_all_slice_rows_witness :
  _activations (self ex_world) = Some ex_matrix
  /\ 0 <= 6 /\ 6 <= 20
  /\ getitem ex_uninit ex_float32 ex_disk
       (KTuple (ISlice (Py.Slice (Some 6) (Some 20) None)) [AStr "all"]) ex_world
     = (ok (Np.NdArray (Np.ncols ex_matrix) (between (Np.rows ex_matrix) 6 20)),
        ex_world).
Proof.
  split; [reflexivity|]. split; [lia|]. split; [lia|].
  apply (getitem_all_slice_rows Z Z ex_uninit ex_float32 ex_disk
           ex_world ex_matrix 6 20); [reflexivity|lia|lia].
Defined.

Lemma getitem_key_absent_witness :
  serves ex_disk (self ex_world) ex_ranges ex_matrix
  /\ In 2 [0; 2] /\ ~ In 2 (keys ex_ranges)
  /\ fst (getitem ex_uninit ex_float32 ex_disk (KTuple (IList [0; 2]) [AStr "key"])
            ex_world) = raise KeyError.
Proof.
  assert (Hin : In 2 [0; 2]) by (right; left; reflexivity).
  assert (Habs : ~ In 2 (keys ex_ranges)) by (simpl; intuition discriminate).
  split; [exact ex_world_serves|]. split; [exact Hin|]. split; [exact Habs|].
  exact (getitem_key_absent Z Z ex_uninit ex_float32 ex_disk
           ex_world ex_ranges ex_matrix [0; 2] 2 ex_world_serves Hin Habs).
Defined.

Lemma getitem_pos_negative_witness :
  serves ex_disk (self ex_world) ex_ranges ex_matrix
  /\ - Z.of_nat (length ex_ranges) <= -1 < 0
  /\ fst (getitem ex_uninit ex_float32 ex_disk (KIndex (IInt (-1))) ex_world)
     = fst (getitem ex_uninit ex_float32 ex_disk
              (KIndex (IInt (-1 + Z.of_nat (length ex_ranges)))) ex_world).
Proof.
  split; [exact ex_world_serves|]. split; [simpl; lia|].
  apply (getitem_pos_negative Z Z ex_uninit ex_float32 ex_disk
           ex_world ex_ranges ex_matrix (-1)); [exact ex_world_serves|simpl; lia].
Defined.

Lemma getitem_pos_out_of_range_witness :
  serves ex_disk (self ex_world) ex_ranges ex_matrix
  /\ - 2 ^ 63 <= 3 < 2 ^ 63
  /\ Z.of_nat (length ex_ranges) <= 3
  /\ fst (getitem ex_uninit ex_float32 ex_disk (KIndex (IInt 3)) ex_world)
     = raise IndexError.
Proof.
  split; [exact ex_world_serves|]. split; [lia|]. split; [simpl; lia|].
  apply (getitem_pos_out_of_range Z Z ex_uninit ex_float32 ex_disk
           ex_world ex_ranges ex_matrix 3); [exact ex_world_serves|lia|].
  right. simpl; lia.
Defined.

Lemma getitem_key_slice_is_key_list_witness :
  serves ex_disk (self ex_world) ex_ranges ex_matrix
  /\ dict_wf ex_ranges
  /\ 6 <> 0
  /\ fst (getitem ex_uninit ex_float32 ex_disk
            (KTuple (ISlice (Py.Slice (Some 1) (Some 6) None)) [AStr "key"]) ex_world)
     = fst (getitem ex_uninit ex_float32 ex_disk
              (KTuple (IList (filter (fun k => (1 <=? k) && (k <? 6)) (keys ex_ranges)))
                      [AStr "key"]) ex_world).
Proof.
  split; [exact ex_world_serves|]. split; [exact ex_ranges_wf|].
  split; [lia|].
  apply (getitem_key_slice_is_key_list Z Z ex_uninit ex_float32 ex_disk
           ex_world ex_ranges ex_matrix (Some 1) None 6);
    [exact ex_world_serves|exact ex_ranges_wf|left; reflexivity|lia].
Defined.

Lemma getitem_key_slice_without_keys_witness :
  serves ex_disk (self ex_world) ex_ranges ex_matrix
  /\ 5 <> 0
  /\ (forall k, In k (keys ex_ranges) -> ~ 2 <= k < 5)
  /\ fst (getitem ex_uninit ex_float32 ex_disk
            (KTuple (ISlice (Py.Slice (Some 2) (Some 5) None)) [AStr "key"]) ex_world)
     = raise ValueError.
Proof.
  assert (Hnone : forall k, In k (keys ex_ranges) -> ~ 2 <= k < 5)
    by (simpl; intros k Hk; lia).
  split; [exact ex_world_serves|]. split; [lia|]. split; [exact Hnone|].
  apply (getitem_key_slice_without_keys Z Z ex_uninit ex_float32 ex_disk
           ex_world ex_ranges ex_matrix (Some 2) None 5);
    [exact ex_world_serves|left; reflexivity|lia|exact Hnone].
Defined.

Lemma getitem_key_list_blocks_witness :
  serves ex_disk (self ex_world) ex_ranges ex_matrix
  /\ [5; 0; 5] <> []
  /\ rmap (dict_get ex_ranges) [5; 0; 5] = ok [(5, 8); (0, 3); (5, 8)]
  /\ fst (getitem ex_uninit ex_float32 ex_disk (KTuple (IList [5; 0; 5]) [AStr "key"])
            ex_world)
     = ok (Np.NdArray 1%nat
             [[105]; [106]; [107]; [100]; [101]; [102]; [105]; [106]; [107]]).
Proof.
  split; [exact ex_world_serves|]. split; [discriminate|].
  split; [reflexivity|].
  apply (getitem_key_list_blocks Z Z ex_uninit ex_float32 ex_disk
           ex_world ex_ranges ex_matrix [5; 0; 5] [(5, 8); (0, 3); (5, 8)]);
    [exact ex_world_serves|discriminate|reflexivity|].
  repeat constructor; unfold Np.len; simpl; lia.
Defined.

Lemma getitem_full_slice_is_matrix_witness :
  serves ex_disk (self ex_world) ex_ranges ex_matrix
  /\ ex_ranges <> []
  /\ tiles (values ex_ranges) 0 (Np.len ex_matrix) = true
  /\ fst (getitem ex_uninit ex_float32 ex_disk
            (KIndex (ISlice (Py.Slice None None None))) ex_world)
     = ok ex_matrix.
Proof.
  split; [exact ex_world_serves|]. split; [discriminate|].
  split; [reflexivity|].
  apply (getitem_full_slice_is_matrix Z Z ex_uninit ex_float32 ex_disk
           ex_world ex_ranges ex_matrix);
    [exact ex_world_serves|discriminate|reflexivity].
Defined.

Lemma lazy_properties_are_cached_witness :
  activation_ranges ex_disk ex_world
  = (ok ex_ranges, snd (activation_ranges ex_disk ex_world))
  /\ activation_ranges ex_disk (snd (activation_ranges ex_disk ex_world))
     = (ok ex_ranges, snd (activation_ranges ex_disk ex_world)).
Proof.
  split; [reflexivity|].
  apply (proj1 (lazy_properties_are_cached Z Z ex_disk ex_world)).
  reflexivity.
Defined.

Lemma failed_selection_keeps_old_matrix_witness :
  activation_files ex_disk (activation_path (self ex_world) (2, "hx")) = None
  /\ fst (activations_setter ex_uninit ex_float32 ex_disk (Some (2, "hx")) ex_world)
     = raise FileNotFoundError
  /\ activation_name
       (self (snd (activations_setter ex_uninit ex_float32 ex_disk (Some (2, "hx"))
                     ex_world)))
     = Some (2, "hx")
  /\ _activations
       (self (snd (activations_setter ex_uninit ex_float32 ex_disk (Some (2, "hx"))
                     ex_world)))
     = Some ex_matrix.
Proof.
  split; [reflexivity|].
  destruct (failed_selection_keeps_old_matrix Z Z ex_uninit ex_float32 ex_disk
              ex_world (2, "hx") eq_refl eq_refl) as [H1 [H2 [H3 _]]].
  split; [exact H1|]. split; [exact H2|exact H3].
Defined.

Lemma getitem_after_empty_file_witness :
  activation_files ex_disk_empty (activation_path (self ex_world) (0, "ox"))
  = Some []
  /\ fst (getitem ex_uninit ex_float32 ex_disk_empty
            (KTuple (IInt 0) [AName (0, "ox")]) ex_world)
     = raise AssertionError.
Proof.
  split; [reflexivity|].
  exact (proj1 (getitem_after_empty_file Z Z ex_uninit ex_float32 ex_disk_empty
                  ex_world (IInt 0) (0, "ox") eq_refl eq_refl)).
Defined.

Lemma read_activations_exact_witness :
  labelled ex_disk (self ex_world) ex_labels
  /\ activation_files ex_disk (activation_path (self ex_world) (1, "hx"))
     = Some ex_dumps
  /\ same_width 1%nat ex_dumps = true
  /\ total_rows ex_dumps = Z.of_nat (length ex_labels)
  /\ fst (read_activations ex_uninit ex_float32 ex_disk (1, "hx") ex_world)
     = ok (Some (Np.NdArray 1%nat
                   (map (map ex_float32) (concat (map Np.rows ex_dumps))))).
Proof.
  split; [exact ex_world_labelled|]. split; [reflexivity|].
  split; [reflexivity|]. split; [reflexivity|].
  exact (read_activations_exact Z Z ex_uninit ex_float32 ex_disk
           ex_world ex_labels (1, "hx")
           (Np.NdArray 1%nat [[100]; [101]; [102]])
           [Np.NdArray 1%nat [[103]; [104]];
            Np.NdArray 1%nat [[105]; [106]; [107]]]
           ex_world_labelled eq_refl eq_refl eq_refl).
Defined.

Lemma create_data_split_keeps_cache_and_rereads_witness :
  exists new,
    cache_kept ex_world
      (snd (create_data_split ex_uninit ex_float32 ex_disk (1, "hx") 5 float_0_7
              (fun _ => [3; 1; 4; 0; 2]) ex_world)) new
    /\ In (OpenActivations (activation_path (self ex_world) (1, "hx"))) new.
Proof.
  destruct (create_data_split_keeps_cache_and_rereads Z Z ex_uninit ex_float32
              ex_disk ex_world (1, "hx") 5 float_0_7 (fun _ => [3; 1; 4; 0; 2]))
    as [new [Hk Hopen]].
  exists new. split; [exact Hk|].
  eapply Hopen. vm_compute. reflexivity.
Defined.

Lemma selection_loads_matrix_witness :
  labelled ex_disk (self ex_fresh) ex_labels
  /\ activation_files ex_disk (activation_path (self ex_fresh) (1, "hx"))
     = Some ex_dumps
  /\ same_width 1%nat ex_dumps = true
  /\ total_rows ex_dumps = Z.of_nat (length ex_labels)
  /\ fst (activations_setter ex_uninit ex_float32 ex_disk (Some (1, "hx")) ex_fresh)
     = ok tt
  /\ activation_name
       (self (snd (activations_setter ex_uninit ex_float32 ex_disk (Some (1, "hx"))
                     ex_fresh)))
     = Some (1, "hx")
  /\ _activations
       (self (snd (activations_setter ex_uninit ex_float32 ex_disk (Some (1, "hx"))
                     ex_fresh)))
     = Some (Np.NdArray 1%nat
               (map (map ex_float32) (concat (map Np.rows ex_dumps)))).
Proof.
  assert (Hl : labelled ex_disk (self ex_fresh) ex_labels)
    by (split; [reflexivity|left; reflexivity]).
  split; [exact Hl|]. split; [reflexivity|].
  split; [reflexivity|]. split; [reflexivity|].
  exact (selection_loads_matrix Z Z ex_uninit ex_float32 ex_disk
           ex_fresh ex_labels (1, "hx")
           (Np.NdArray 1%nat [[100]; [101]; [102]])
           [Np.NdArray 1%nat [[103]; [104]];
            Np.NdArray 1%nat [[105]; [106]; [107]]]
           eq_refl Hl eq_refl eq_refl eq_refl).
Defined.

Lemma cast_name_digit_suffix_witness :
  0 <= 1 <= 9 /\ Setup.cast_name ("hx" ++ Py.str_of_int 1) = ok (1, "hx").
Proof.
  split; [lia|]. apply (cast_name_digit_suffix "hx" 1). lia.
Defined.

Lemma cast_activation_names_in_place_witness :
  rmap Setup.cast_name ["hx1"; "cx0"] = ok [(1, "hx"); (0, "cx")]
  /\ Setup.cast_name "hx" = raise ValueError
  /\ Setup.cast_activation_names ["hx1"; "cx0"; "hx"; "cx1"]
     = (raise ValueError,
        [Setup.Cast (1, "hx"); Setup.Cast (0, "cx");
         Setup.Raw "hx"; Setup.Raw "cx1"]).
Proof.
  split; [reflexivity|]. split; [reflexivity|].
  exact (proj2 (cast_activation_names_in_place ["hx1"; "cx0"]
                  [(1, "hx"); (0, "cx")] eq_refl)
               "hx" ["cx1"] ValueError eq_refl).
Defined.

Lemma cast_name_rejects_witness :
  Setup.int_of_char "x" = raise ValueError
  /\ Setup.cast_name ("h" ++ "x") = raise ValueError.
Proof.
  split; [reflexivity|].
  exact (proj2 (cast_name_rejects "h" "x") eq_refl).
Defined.

Lemma add_cmd_args_appends_nested_witness :
  String.eqb "model.state_dict" "config" = false
  /\ exists nested,
      Setup.add_cmd_args (fun a b : Setup.value string => b) (Setup.Dict [])
        ([("config", Some (Setup.Leaf "c.json"))]
         ++ [("model.state_dict", Some (Setup.Leaf "lstm.pt"))])
      = (fun a b : Setup.value string => b)
          (Setup.add_cmd_args (fun a b : Setup.value string => b) (Setup.Dict [])
             [("config", Some (Setup.Leaf "c.json"))])
          nested
      /\ Setup.get_path nested (Setup.split_dot "model.state_dict")
         = Some (Setup.Leaf "lstm.pt")
      /\ Setup.join_dot (Setup.split_dot "model.state_dict") = "model.state_dict".
Proof.
  split; [reflexivity|].
  exact (add_cmd_args_appends_nested string (fun a b => b) (Setup.Dict [])
           (Setup.Leaf "lstm.pt") [("config", Some (Setup.Leaf "c.json"))]
           "model.state_dict" eq_refl).
Defined.

Lemma add_cmd_args_without_values_witness :
  Forall (fun av : string * option (Setup.value string) =>
            snd av = None \/ fst av = "config")
         [("config", Some (Setup.Leaf "c.json")); ("model.state_dict", None)]
  /\ Setup.add_cmd_args (fun a b : Setup.value string => b) (Setup.Dict ex_config)
       [("config", Some (Setup.Leaf "c.json")); ("model.state_dict", None)]
     = Setup.Dict ex_config.
Proof.
  assert (H : Forall (fun av : string * option (Setup.value string) =>
                        snd av = None \/ fst av = "config")
                     [("config", Some (Setup.Leaf "c.json"));
                      ("model.state_dict", None)]).
  { constructor; [right; reflexivity|].
    constructor; [left; reflexivity|constructor]. }
  split; [exact H|].
  exact (add_cmd_args_without_values string (fun a b => b) (Setup.Dict ex_config)
           _ H).
Defined.

Lemma ex_config_groups :
  Forall (fun gv : string * Setup.value string =>
            exists items, snd gv = Setup.Dict items) ex_config.
Proof.
  constructor; [eexists; reflexivity|].
  constructor; [eexists; reflexivity|constructor].
Defined.

Lemma validate_config_passes_iff_witness :
  Forall (fun gv : string * Setup.value string =>
            exists items, snd gv = Setup.Dict items) ex_config
  /\ Setup.validate_config ["model.state_dict"] ex_config = inr tt
  /\ forall arg, In arg ["model.state_dict"] ->
       exists g items k,
         In (g, Setup.Dict items) ex_config
         /\ In k (map fst items)
         /\ arg = (g ++ "." ++ k)%string.
Proof.
  split; [exact ex_config_groups|]. split; [reflexivity|].
  apply (proj1 (proj1 (validate_config_passes_iff string ["model.state_dict"]
                         ex_config ex_config_groups))).
  reflexivity.
Defined.

Lemma validate_config_non_dict_group_witness :
  In ("seed", Setup.Leaf "3") (("seed", Setup.Leaf "3") :: ex_config)
  /\ Setup.validate_config [] (("seed", Setup.Leaf "3") :: ex_config)
     = inl Setup.AttributeError.
Proof.
  split; [left; reflexivity|].
  apply (validate_config_non_dict_group string [] _ "seed" "3").
  left. reflexivity.
Defined.
